(** * go-like-ts: the Result type, its combinators and the user service

    A shallow embedding of [src/types/go-like.ts],
    [src/example/user-service.ts] and the helper of [src/test-setup.ts].

    Conventions of the embedding.
    - A JavaScript string is a [string]: one [ascii] per UTF-16 code unit,
      for code units below 256.  [String.length] is the [length] property
      and [=] on strings is [===].
    - An optional property ([data?: T], [error?: string], [name?: string])
      is an [option]; [None] is [undefined].  A payload type [T] stands for
      the defined values of the TypeScript type, and a value that may be
      [undefined] (the argument of [createSuccess], what a mapper returns,
      a default) is an [option T].
    - A JavaScript number is a [number], see [JS.number]: a finite number is
      held by its exact decimal value, binary64 rounding is not modelled.
      The two agree on the integers up to 2^53, so on the ids the service
      issues by counting up from 1, and on decimal literals of at most 15
      significant digits.
    - The service object is a record of its two fields; a method takes the
      object and returns its result together with the object afterwards. *)

From Stdlib Require Import ZArith List String Ascii Bool Lia DecimalString FinFun.
From Stdlib Require Import DecimalPos DecimalN Sorted.
Import ListNotations.

Local Open Scope string_scope.
Local Open Scope Z_scope.

(** ** The JavaScript built-ins the source calls *)

Module JS.

(** The double quote, for template literals that print one. *)
Definition dquote : string := String "034"%char EmptyString.

(** [a || b] on an optional string: [a] when it is truthy, that is
    neither [undefined] nor the empty string, and [b] otherwise. *)
Definition or (a : option string) (b : string) : string :=
  match a with
  | Some (String c s) => String c s
  | Some EmptyString => b
  | None => b
  end.

(** WhiteSpace and LineTerminator code units below 256: TAB, LF, VT, FF,
    CR, SP and NBSP.  This is also the class [\s] of a regular
    expression. *)
Definition is_white_space (c : ascii) : bool :=
  let n := nat_of_ascii c in
  ((9 <=? n) && (n <=? 13) || (n =? 32) || (n =? 160))%nat.

(** *** Numbers *)

(** [Int z] is the integer [z] ([Int 0] is [+0]); [Dec m k] is the
    non-integer [m / 10^k], with [m] not a multiple of 10. *)
Inductive number : Type :=
| NaN
| Infinity (negative : bool)
| NegZero
| Int (z : Z)
| Dec (m : Z) (k : positive).

Definition number_eq_dec (x y : number) : {x = y} + {x <> y}.
Proof.
  decide equality;
    first [apply Z.eq_dec | apply Pos.eq_dec | apply Bool.bool_dec].
Defined.

Definition isNaN (x : number) : bool :=
  match x with NaN => true | _ => false end.

(** [x === y] on numbers: [NaN] differs from everything, the two zeros
    are equal. *)
Definition strict_eq (x y : number) : bool :=
  match x, y with
  | NaN, _ | _, NaN => false
  | NegZero, NegZero | NegZero, Int 0 | Int 0, NegZero => true
  | _, _ => if number_eq_dec x y then true else false
  end.

(** A [Map] stores the key [-0] as [+0]. *)
Definition normalize_key (x : number) : number :=
  match x with NegZero => Int 0 | _ => x end.

(** SameValueZero, the key comparison of [Map]: as [===], but [NaN] is
    equal to itself. *)
Definition SameValueZero (x y : number) : bool :=
  if number_eq_dec (normalize_key x) (normalize_key y) then true else false.

(** [x + 1], the new value of [x++]. *)
Definition succ (x : number) : number :=
  match x with
  | NaN => NaN
  | Infinity b => Infinity b
  | NegZero => Int 1
  | Int z => Int (z + 1)
  | Dec m k => Dec (m + 10 ^ Z.pos k) k
  end.

(** The number [d * 10^t], negated when [neg]; [k] counts down the
    decimal places left, [d] an integer scaled by [10^k]. *)
Fixpoint of_scaled (d : Z) (k : nat) : number :=
  match k with
  | O => Int d
  | S k' =>
      if d mod 10 =? 0 then of_scaled (d / 10) k'
      else Dec d (Pos.of_succ_nat k')
  end.

Definition of_decimal (neg : bool) (d : Z) (t : Z) : number :=
  if d =? 0 then (if neg then NegZero else Int 0)
  else
    let d' := if neg then - d else d in
    if 0 <=? t then Int (d' * 10 ^ t) else of_scaled d' (Z.to_nat (- t)).

(** *** Number(string): StringToNumber *)

Definition digit_value (c : ascii) : option Z :=
  let n := Z.of_nat (nat_of_ascii c) in
  if (48 <=? n) && (n <=? 57) then Some (n - 48)
  else if (97 <=? n) && (n <=? 102) then Some (n - 87)
  else if (65 <=? n) && (n <=? 70) then Some (n - 55)
  else None.

(** The longest run of digits of [base] at the head of [s]: its value on
    top of [acc], its length on top of [cnt], and what follows it. *)
Fixpoint read_digits (base : Z) (s : string) (acc : Z) (cnt : Z)
  : Z * Z * string :=
  match s with
  | EmptyString => (acc, cnt, EmptyString)
  | String c r =>
      match digit_value c with
      | Some v =>
          if v <? base then read_digits base r (acc * base + v) (cnt + 1)
          else (acc, cnt, s)
      | None => (acc, cnt, s)
      end
  end.

Fixpoint trim_start (s : string) : string :=
  match s with
  | String c r => if is_white_space c then trim_start r else s
  | EmptyString => EmptyString
  end.

Fixpoint trim_end (s : string) : string :=
  match s with
  | EmptyString => EmptyString
  | String c r =>
      match trim_end r with
      | EmptyString => if is_white_space c then EmptyString
                       else String c EmptyString
      | r' => String c r'
      end
  end.

Definition trim (s : string) : string := trim_end (trim_start s).

(** NonDecimalIntegerLiteral without its prefix: one or more digits of
    [base] and nothing else. *)
Definition non_decimal (base : Z) (s : string) : number :=
  match read_digits base s 0 0 with
  | (v, cnt, EmptyString) => if 0 <? cnt then Int v else NaN
  | _ => NaN
  end.

(** ExponentPart, after its [e] or [E]: an optional sign, one or more
    decimal digits and nothing else. *)
Definition exponent_part (s : string) : option Z :=
  let '(neg, ds) :=
    match s with
    | String "+" r => (false, r)
    | String "-" r => (true, r)
    | _ => (false, s)
    end in
  match read_digits 10 ds 0 0 with
  | (v, cnt, EmptyString) =>
      if 0 <? cnt then Some (if neg then - v else v) else None
  | _ => None
  end.

(** StrUnsignedDecimalLiteral. *)
Definition unsigned_decimal (neg : bool) (s : string) : number :=
  if String.eqb s "Infinity" then Infinity neg
  else
    let '(i, ni, r1) := read_digits 10 s 0 0 in
    let '(d, nf, r2) :=
      match r1 with
      | String "." r => let '(d, nf, r2) := read_digits 10 r i 0 in
                        (d, nf, r2)
      | _ => (i, 0, r1)
      end in
    if ni + nf =? 0 then NaN
    else
      match r2 with
      | EmptyString => of_decimal neg d (- nf)
      | String c r =>
          if (Ascii.eqb c "e" || Ascii.eqb c "E")%bool then
            match exponent_part r with
            | Some e => of_decimal neg d (e - nf)
            | None => NaN
            end
          else NaN
      end.

(** [Number(value)]: the StringNumericLiteral grammar, read to its exact
    value.  The language then rounds that value to the nearest double;
    the embedding keeps it.  The two agree where the value read is a
    double, so on the decimal numerals of the integers from -2^53 to
    2^53. *)
Definition Number (value : string) : number :=
  match trim value with
  | EmptyString => Int 0
  | String "0" (String "x" r) | String "0" (String "X" r) => non_decimal 16 r
  | String "0" (String "o" r) | String "0" (String "O" r) => non_decimal 8 r
  | String "0" (String "b" r) | String "0" (String "B" r) => non_decimal 2 r
  | String "+" r => unsigned_decimal false r
  | String "-" r => unsigned_decimal true r
  | s => unsigned_decimal false s
  end.

(** *** String(number): Number::toString in radix 10 *)

Definition digits_of (z : Z) : string :=
  NilZero.string_of_uint (N.to_uint (Z.to_N z)).

Fixpoint zeros (n : nat) : string :=
  match n with O => EmptyString | S n' => String "0" (zeros n') end.

Fixpoint strip_zeros (s : string) : string :=
  match s with
  | EmptyString => EmptyString
  | String c r =>
      match strip_zeros r with
      | EmptyString => if Ascii.eqb c "0" then EmptyString
                       else String c EmptyString
      | r' => String c r'
      end
  end.

(** The digits [s] (the first not 0, the last not 0) of a positive
    number [0.s * 10^n], laid out as Number::toString does. *)
Definition layout (s : string) (n : Z) : string :=
  let k := Z.of_nat (String.length s) in
  if (k <=? n) && (n <=? 21) then s ++ zeros (Z.to_nat (n - k))
  else if (0 <? n) && (n <=? 21) then
    substring 0 (Z.to_nat n) s ++ "." ++
    substring (Z.to_nat n) (Z.to_nat (k - n)) s
  else if (-6 <? n) && (n <=? 0) then "0." ++ zeros (Z.to_nat (- n)) ++ s
  else
    let e := (if 0 <=? n - 1 then "+" else "-") ++ digits_of (Z.abs (n - 1)) in
    if k =? 1 then s ++ "e" ++ e
    else substring 0 1 s ++ "." ++ substring 1 (Z.to_nat (k - 1)) s
         ++ "e" ++ e.

Definition positive_to_string (x : number) : string :=
  match x with
  | Int z =>
      let ds := digits_of z in
      layout (strip_zeros ds) (Z.of_nat (String.length ds))
  | Dec m k =>
      let ds := digits_of m in
      layout ds (Z.of_nat (String.length ds) - Z.pos k)
  | _ => EmptyString
  end.

(** [String(x)].  Number::toString lays out the shortest digits that
    read back to the double [x]; the embedding lays out all the digits of
    the exact value.  The two agree on the integers from -2^53 to 2^53,
    whose shortest digits are all their digits up to trailing zeros. *)
Definition ToString (x : number) : string :=
  match x with
  | NaN => "NaN"
  | Infinity false => "Infinity"
  | Infinity true => "-Infinity"
  | NegZero => "0"
  | Int z =>
      if z =? 0 then "0"
      else if z <? 0 then "-" ++ positive_to_string (Int (- z))
      else positive_to_string (Int z)
  | Dec m k =>
      if m <? 0 then "-" ++ positive_to_string (Dec (- m) k)
      else positive_to_string (Dec m k)
  end.

(** *** typeof *)

(** A value of type [unknown]; only its [typeof] matters when it is
    neither a number nor a string. *)
Inductive unknown : Type :=
| VUndefined
| VNull
| VBoolean (b : bool)
| VNumber (n : number)
| VString (s : string)
| VBigInt (z : Z)
| VSymbol
| VFunction
| VObject.

Definition typeof (v : unknown) : string :=
  match v with
  | VUndefined => "undefined"
  | VNull => "object"
  | VBoolean _ => "boolean"
  | VNumber _ => "number"
  | VString _ => "string"
  | VBigInt _ => "bigint"
  | VSymbol => "symbol"
  | VFunction => "function"
  | VObject => "object"
  end.

(** *** Strings *)

(** A string that may be [undefined], inside a template literal. *)
Definition template (v : option string) : string :=
  match v with Some s => s | None => "undefined" end.

(** [String(b)] for a boolean. *)
Definition BooleanToString (b : bool) : string :=
  if b then "true" else "false".

(** toLowerCase on one code unit below 256: the letters A to Z, and the
    capital letters of Latin-1 (192 to 222, but the multiplication sign
    215), move up by 32. *)
Definition lower (c : ascii) : ascii :=
  let n := nat_of_ascii c in
  if ((65 <=? n) && (n <=? 90)
      || (192 <=? n) && (n <=? 222) && negb (n =? 215))%nat
  then ascii_of_nat (n + 32) else c.

Fixpoint toLowerCase (s : string) : string :=
  match s with
  | EmptyString => EmptyString
  | String c r => String (lower c) (toLowerCase r)
  end.

End JS.

(** ** Regular expressions

    A pattern without flags, anchored by [^] and [$], tested by
    Brzozowski derivatives: [test r s] is [r.test(s)].  [Matches] is the
    meaning of a pattern, which [test] decides. *)

Module RegExp.

Inductive t : Type :=
| Void
| Eps
| Class (p : ascii -> bool)
| Seq (r1 r2 : t)
| Alt (r1 r2 : t)
| Star (r : t).

Definition Plus (r : t) : t := Seq r (Star r).
Definition Char (c : ascii) : t := Class (Ascii.eqb c).

Fixpoint nullable (r : t) : bool :=
  match r with
  | Void => false
  | Eps => true
  | Class _ => false
  | Seq r1 r2 => nullable r1 && nullable r2
  | Alt r1 r2 => nullable r1 || nullable r2
  | Star _ => true
  end.

Definition seq (r1 r2 : t) : t :=
  match r1, r2 with
  | Void, _ | _, Void => Void
  | Eps, r | r, Eps => r
  | _, _ => Seq r1 r2
  end.

Definition alt (r1 r2 : t) : t :=
  match r1, r2 with
  | Void, r | r, Void => r
  | _, _ => Alt r1 r2
  end.

Fixpoint deriv (c : ascii) (r : t) : t :=
  match r with
  | Void => Void
  | Eps => Void
  | Class p => if p c then Eps else Void
  | Seq r1 r2 =>
      alt (seq (deriv c r1) r2) (if nullable r1 then deriv c r2 else Void)
  | Alt r1 r2 => alt (deriv c r1) (deriv c r2)
  | Star r1 => seq (deriv c r1) (Star r1)
  end.

Fixpoint test (r : t) (s : string) : bool :=
  match s with
  | EmptyString => nullable r
  | String c s' => test (deriv c r) s'
  end.

(** The strings a pattern matches, from its first to its last character. *)
Inductive Matches : t -> string -> Prop :=
| MEps : Matches Eps EmptyString
| MClass (p : ascii -> bool) (c : ascii) :
    p c = true -> Matches (Class p) (String c EmptyString)
| MSeq (r1 r2 : t) (s1 s2 : string) :
    Matches r1 s1 -> Matches r2 s2 -> Matches (Seq r1 r2) (s1 ++ s2)
| MAltL (r1 r2 : t) (s : string) : Matches r1 s -> Matches (Alt r1 r2) s
| MAltR (r1 r2 : t) (s : string) : Matches r2 s -> Matches (Alt r1 r2) s
| MStarNil (r : t) : Matches (Star r) EmptyString
| MStarApp (r : t) (s1 s2 : string) :
    Matches r s1 -> Matches (Star r) s2 -> Matches (Star r) (s1 ++ s2).

(** Every character of [s] is in the class [p]. *)
Fixpoint all_chars (p : ascii -> bool) (s : string) : bool :=
  match s with
  | EmptyString => true
  | String c r => p c && all_chars p r
  end.

End RegExp.

(** ** types/go-like.ts *)

Record IResult (T : Type) : Type := mkResult {
  success : bool;
  data : option T;
  error : option string
}.
Arguments mkResult {T}.
Arguments success {T}.
Arguments data {T}.
Arguments error {T}.

(** [createSuccess(data)].  [createSuccess None] is
    [createSuccess(undefined)]: the success flag without a payload. *)
Definition createSuccess {T : Type} (data : option T) : IResult T :=
  {| success := true; data := data; error := None |}.

Definition createError {T : Type} (error : string) : IResult T :=
  {| success := false; data := None; error := Some error |}.

Module TypeConverter.

Definition toNumber (value : JS.unknown) : IResult JS.number :=
  match value with
  | JS.VNumber n => createSuccess (Some n)
  | JS.VString s =>
      let parsed := JS.Number s in
      if JS.isNaN parsed then
        createError ("Cannot convert " ++ JS.dquote ++ s ++ JS.dquote
                     ++ " to number")
      else createSuccess (Some parsed)
  | _ => createError ("Cannot convert " ++ JS.typeof value ++ " to number")
  end.

Definition toString (value : JS.unknown) : IResult string :=
  match value with
  | JS.VString s => createSuccess (Some s)
  | JS.VNumber n => createSuccess (Some (JS.ToString n))
  | JS.VBoolean b => createSuccess (Some (JS.BooleanToString b))
  | JS.VNull => createSuccess (Some "null")
  | JS.VUndefined => createSuccess (Some "undefined")
  | _ => createError ("Cannot convert " ++ JS.typeof value ++ " to string")
  end.

Definition toBoolean (value : JS.unknown) : IResult bool :=
  match value with
  | JS.VBoolean b => createSuccess (Some b)
  | JS.VString s =>
      if String.eqb (JS.toLowerCase s) "true" then createSuccess (Some true)
      else if String.eqb (JS.toLowerCase s) "false" then createSuccess (Some false)
      else createError ("Cannot convert " ++ JS.dquote ++ s ++ JS.dquote
                        ++ " to boolean")
  | JS.VNumber n =>
      if JS.strict_eq n (JS.Int 0) then createSuccess (Some false)
      else if JS.strict_eq n (JS.Int 1) then createSuccess (Some true)
      else createError ("Cannot convert number " ++ JS.ToString n
                        ++ " to boolean")
  | _ => createError ("Cannot convert " ++ JS.typeof value ++ " to boolean")
  end.

End TypeConverter.

Module GoLikeValidator.

Definition isNotUndefined {T : Type} (value : option T) : bool :=
  match value with Some _ => true | None => false end.

Definition isEmpty (value : string) : bool :=
  (String.length value =? 0)%nat.

Definition isNotEmpty (value : string) : bool :=
  (0 <? String.length value)%nat.

End GoLikeValidator.

Module ResultUtils.

Definition map {TInput TOutput : Type}
    (result : IResult TInput) (mapper : TInput -> option TOutput)
  : IResult TOutput :=
  if negb (success result) then
    createError (JS.or (error result) "Unknown error")
  else
    match data result with
    | Some d => createSuccess (mapper d)
    | None => createError "Data is undefined"
    end.

Definition flatMap {TInput TOutput : Type}
    (result : IResult TInput) (mapper : TInput -> IResult TOutput)
  : IResult TOutput :=
  if negb (success result) then
    createError (JS.or (error result) "Unknown error")
  else
    match data result with
    | Some d => mapper d
    | None => createError "Data is undefined"
    end.

Definition unwrapOr {T : Type} (result : IResult T) (defaultValue : option T)
  : option T :=
  if success result && GoLikeValidator.isNotUndefined (data result) then
    data result
  else defaultValue.

Definition isError {T : Type} (result : IResult T) : bool :=
  negb (success result).

Definition isSuccess {T : Type} (result : IResult T) : bool :=
  success result && GoLikeValidator.isNotUndefined (data result).

End ResultUtils.

Module IUser.
Record t : Type := mk { id : JS.number; name : string; email : string }.
End IUser.

Module IUserCreateRequest.
Record t : Type := mk { name : string; email : string }.
End IUserCreateRequest.

(** [Partial<IUserCreateRequest>], the type of the updates. *)
Module PartialRequest.
Record t : Type := mk { name : option string; email : option string }.
End PartialRequest.

(** ** Map<number, V>

    The entries in insertion order; keys are compared by SameValueZero. *)

Module JsMap.
Section WithValues.
Context {V : Type}.

Definition t : Type := list (JS.number * V).

Definition empty : t := [].

Fixpoint get (key : JS.number) (m : t) : option V :=
  match m with
  | [] => None
  | (k, v) :: r => if JS.SameValueZero k key then Some v else get key r
  end.

Definition has (key : JS.number) (m : t) : bool :=
  match get key m with Some _ => true | None => false end.

(** An existing entry keeps its place and takes the new value; a new
    entry goes last. *)
Fixpoint set (key : JS.number) (value : V) (m : t) : t :=
  match m with
  | [] => [(JS.normalize_key key, value)]
  | (k, v) :: r =>
      if JS.SameValueZero k key then (k, value) :: r
      else (k, v) :: set key value r
  end.

Fixpoint delete (key : JS.number) (m : t) : t :=
  match m with
  | [] => []
  | (k, v) :: r =>
      if JS.SameValueZero k key then r else (k, v) :: delete key r
  end.

Definition keys (m : t) : list JS.number := List.map fst m.
Definition values (m : t) : list V := List.map snd m.
End WithValues.
Arguments t : clear implicits.
End JsMap.

(** ** example/user-service.ts *)

Module UserService.

Record t : Type := mk {
  users : JsMap.t IUser.t;
  nextId : JS.number
}.

(** [new UserService()]. *)
Definition new : t := {| users := JsMap.empty; nextId := JS.Int 1 |}.

Definition validateName (name : string) : IResult bool :=
  if negb (GoLikeValidator.isNotEmpty name) then
    createError "Name cannot be empty"
  else if (50 <? String.length name)%nat then
    createError "Name cannot exceed 50 characters"
  else createSuccess (Some true).

(** [[^\s@]]. *)
Definition not_space_at (c : ascii) : bool :=
  negb (JS.is_white_space c || Ascii.eqb c "@").

(** [/^[^\s@]+@[^\s@]+\.[^\s@]+$/]. *)
Definition emailRegex : RegExp.t :=
  RegExp.Seq (RegExp.Plus (RegExp.Class not_space_at))
    (RegExp.Seq (RegExp.Char "@")
       (RegExp.Seq (RegExp.Plus (RegExp.Class not_space_at))
          (RegExp.Seq (RegExp.Char ".")
             (RegExp.Plus (RegExp.Class not_space_at))))).

Definition validateEmail (email : string) : IResult bool :=
  if negb (GoLikeValidator.isNotEmpty email) then
    createError "Email cannot be empty"
  else if negb (RegExp.test emailRegex email) then
    createError "Invalid email format"
  else createSuccess (Some true).

Definition findUserByEmail (email : string) (this : t) : IResult IUser.t :=
  let users := JsMap.values (users this) in
  let user := List.find (fun u => String.eqb (IUser.email u) email) users in
  match user with
  | None => createError "User not found"
  | Some user => createSuccess (Some user)
  end.

Definition createUser (request : IUserCreateRequest.t) (this : t)
  : IResult IUser.t * t :=
  let nameValidation := validateName (IUserCreateRequest.name request) in
  if negb (success nameValidation) then
    (createError (JS.or (error nameValidation) "Name validation failed"),
     this)
  else
  let emailValidation := validateEmail (IUserCreateRequest.email request) in
  if negb (success emailValidation) then
    (createError (JS.or (error emailValidation) "Email validation failed"),
     this)
  else
  let existingUserCheck :=
    findUserByEmail (IUserCreateRequest.email request) this in
  if success existingUserCheck then
    (createError "User with this email already exists", this)
  else
  let user :=
    {| IUser.id := nextId this;
       IUser.name := IUserCreateRequest.name request;
       IUser.email := IUserCreateRequest.email request |} in
  let this := {| users := users this; nextId := JS.succ (nextId this) |} in
  let this :=
    {| users := JsMap.set (IUser.id user) user (users this);
       nextId := nextId this |} in
  (createSuccess (Some user), this).

Definition getUserById (id : string) (this : t) : IResult IUser.t :=
  let idConversionResult := TypeConverter.toNumber (JS.VString id) in
  if negb (success idConversionResult) then
    createError ("Invalid ID format: "
                 ++ JS.or (error idConversionResult) "unknown error")
  else
  match data idConversionResult with
  | None => createError "ID conversion resulted in undefined"
  | Some numericId =>
      match JsMap.get numericId (users this) with
      | None =>
          createError ("User not found with ID: " ++ JS.ToString numericId)
      | Some user => createSuccess (Some user)
      end
  end.

Definition getAllUsers (this : t) : IResult (list IUser.t) :=
  let users := JsMap.values (users this) in
  createSuccess (Some users).

Definition updateUser (id : string) (updates : PartialRequest.t) (this : t)
  : IResult IUser.t * t :=
  let getUserResult := getUserById id this in
  if negb (success getUserResult) then
    (createError (JS.or (error getUserResult) "User not found"), this)
  else
  match data getUserResult with
  | None => (createError "Retrieved user is undefined", this)
  | Some existingUser =>
      let nameCheck : option string :=
        match PartialRequest.name updates with
        | Some name =>
            let nameValidation := validateName name in
            if negb (success nameValidation) then
              Some (JS.or (error nameValidation) "Name validation failed")
            else None
        | None => None
        end in
      match nameCheck with
      | Some e => (createError e, this)
      | None =>
      let emailCheck : option string :=
        match PartialRequest.email updates with
        | Some email =>
            let emailValidation := validateEmail email in
            if negb (success emailValidation) then
              Some (JS.or (error emailValidation) "Email validation failed")
            else
              let existingEmailCheck := findUserByEmail email this in
              if success existingEmailCheck
                 && negb (match data existingEmailCheck with
                          | Some other =>
                              JS.strict_eq (IUser.id other)
                                           (IUser.id existingUser)
                          | None => false
                          end)
              then Some "Email is already in use by another user"
              else None
        | None => None
        end in
      match emailCheck with
      | Some e => (createError e, this)
      | None =>
          let updatedUser :=
            {| IUser.id := IUser.id existingUser;
               IUser.name := JS.or (PartialRequest.name updates)
                                   (IUser.name existingUser);
               IUser.email := JS.or (PartialRequest.email updates)
                                    (IUser.email existingUser) |} in
          (createSuccess (Some updatedUser),
           {| users := JsMap.set (IUser.id updatedUser) updatedUser
                                 (users this);
              nextId := nextId this |})
      end
      end
  end.

Definition deleteUser (id : string) (this : t) : IResult bool * t :=
  let idConversionResult := TypeConverter.toNumber (JS.VString id) in
  if negb (success idConversionResult) then
    (createError ("Invalid ID format: "
                  ++ JS.or (error idConversionResult) "unknown error"),
     this)
  else
  match data idConversionResult with
  | None => (createError "ID conversion resulted in undefined", this)
  | Some numericId =>
      let exists_ := JsMap.has numericId (users this) in
      if negb exists_ then
        (createError ("User not found with ID: " ++ JS.ToString numericId),
         this)
      else
        (createSuccess (Some true),
         {| users := JsMap.delete numericId (users this);
            nextId := nextId this |})
  end.

End UserService.

Definition demonstrateGoLikeTypescript : IResult string :=
  let userService := UserService.new in
  let '(createResult, userService) :=
    UserService.createUser
      (IUserCreateRequest.mk "John Doe" "john@example.com") userService in
  if negb (success createResult) then
    createError ("Failed to create user: "
                 ++ JS.or (error createResult) "unknown error")
  else
  match data createResult with
  | None => createError "Created user is undefined"
  | Some user =>
      let getUserResult :=
        UserService.getUserById (JS.ToString (IUser.id user)) userService in
      if negb (success getUserResult) then
        createError ("Failed to get user: "
                     ++ JS.or (error getUserResult) "unknown error")
      else
      let userNameResult :=
        ResultUtils.map getUserResult
          (fun userData => Some (IUser.name userData)) in
      let userName := ResultUtils.unwrapOr userNameResult (Some "Unknown") in
      createSuccess
        (Some ("Successfully demonstrated Go-like TypeScript with user: "
               ++ JS.template userName))
  end.

(** ** test-setup.ts

    A helper either returns a value or throws an [Error] with a
    message. *)

Inductive outcome (T : Type) : Type :=
| Returns (value : T)
| Throws (message : string).
Arguments Returns {T}.
Arguments Throws {T}.

Module TestHelper.

Definition assertSuccess {T : Type} (result : IResult T) : outcome T :=
  if negb (success result) then
    Throws ("Expected success but got error: "
            ++ JS.or (error result) "unknown")
  else
    match data result with
    | None => Throws "Expected data to be defined in successful result"
    | Some d => Returns d
    end.

Definition assertError {T : Type} (result : IResult T) : outcome string :=
  if success result then Throws "Expected error but got success"
  else
    match error result with
    | None => Throws "Expected error message to be defined"
    | Some e => Returns e
    end.

End TestHelper.

(** ** Sequences of public operations on one store *)

Inductive op : Type :=
| Create (request : IUserCreateRequest.t)
| GetById (id : string)
| ListAll
| Update (id : string) (updates : PartialRequest.t)
| Delete (id : string).

(** What a public operation returns. *)
Inductive response : Type :=
| RUser (r : IResult IUser.t)
| RUsers (r : IResult (list IUser.t))
| RFlag (r : IResult bool).

Definition succeeded (r : response) : bool :=
  match r with
  | RUser r => success r
  | RUsers r => success r
  | RFlag r => success r
  end.

Definition step (o : op) (s : UserService.t) : response * UserService.t :=
  match o with
  | Create request =>
      let r := UserService.createUser request s in (RUser (fst r), snd r)
  | GetById id => (RUser (UserService.getUserById id s), s)
  | ListAll => (RUsers (UserService.getAllUsers s), s)
  | Update id updates =>
      let r := UserService.updateUser id updates s in (RUser (fst r), snd r)
  | Delete id =>
      let r := UserService.deleteUser id s in (RFlag (fst r), snd r)
  end.

(** The store after the operations [ops], run in order from [s]. *)
Fixpoint run (ops : list op) (s : UserService.t) : UserService.t :=
  match ops with
  | [] => s
  | o :: ops' => run ops' (snd (step o s))
  end.

(** The id of the record a successful [Create] returned. *)
Definition issued_by (o : op) (r : response) : list JS.number :=
  match o, r with
  | Create _, RUser r =>
      if success r then
        match data r with Some u => [IUser.id u] | None => [] end
      else []
  | _, _ => []
  end.

(** The ids assigned by the successful creates among [ops], in creation
    order. *)
Fixpoint issued (ops : list op) (s : UserService.t) : list JS.number :=
  match ops with
  | [] => []
  | o :: ops' => issued_by o (fst (step o s)) ++ issued ops' (snd (step o s))
  end.

(** The records and the emails present in a store. *)
Definition records (s : UserService.t) : list IUser.t :=
  JsMap.values (UserService.users s).

Definition emails (s : UserService.t) : list string :=
  List.map IUser.email (records s).

(** ** The vocabulary of the proofs *)

(** The record [createUser] builds. *)
Definition created (request : IUserCreateRequest.t) (s : UserService.t)
  : IUser.t :=
  {| IUser.id := UserService.nextId s;
     IUser.name := IUserCreateRequest.name request;
     IUser.email := IUserCreateRequest.email request |}.

(** The record [updateUser] builds from the stored one. *)
Definition updated (updates : PartialRequest.t) (existing : IUser.t)
  : IUser.t :=
  {| IUser.id := IUser.id existing;
     IUser.name := JS.or (PartialRequest.name updates) (IUser.name existing);
     IUser.email := JS.or (PartialRequest.email updates)
                          (IUser.email existing) |}.

(** The requests and the records of the test suite. *)
Definition john : IUserCreateRequest.t :=
  IUserCreateRequest.mk "John Doe" "john@example.com".
Definition jane : IUserCreateRequest.t :=
  IUserCreateRequest.mk "Jane Doe" "jane@example.com".
Definition john1 : IUser.t := IUser.mk (JS.Int 1) "John Doe" "john@example.com".
Definition jane2 : IUser.t := IUser.mk (JS.Int 2) "Jane Doe" "jane@example.com".

(** A part of an email address: one or more characters, none a white
    space or an [@]. *)
Definition email_part (s : string) : Prop :=
  s <> EmptyString /\ RegExp.all_chars UserService.not_space_at s = true.

(** No key of [m] is the key [q]. *)
Definition misses {V : Type} (q : JS.number) (m : JsMap.t V) : Prop :=
  Forall (fun e => JS.SameValueZero (fst e) q = false) m.

(** *** The invariant of the store *)

(** An entry sits under the id of its record, an id issued before the
    counter reached [n]. *)
Definition entry_ok (n : Z) (e : JS.number * IUser.t) : Prop :=
  exists z, 1 <= z < n /\ fst e = JS.Int z /\ IUser.id (snd e) = JS.Int z.

Record wf (n : Z) (s : UserService.t) : Prop := {
  wf_next : UserService.nextId s = JS.Int n;
  wf_pos : 1 <= n;
  wf_entries : Forall (entry_ok n) (UserService.users s);
  wf_keys : NoDup (JsMap.keys (UserService.users s));
  wf_emails : NoDup (emails s)
}.

(** *** Decimal digit strings *)

Definition is_decimal (c : ascii) : bool :=
  let n := nat_of_ascii c in ((48 <=? n) && (n <=? 57))%nat.

(** The value of the decimal digits [s], read after the value [acc]. *)
Fixpoint dval (s : string) (acc : Z) : Z :=
  match s with
  | EmptyString => acc
  | String c r => dval r (acc * 10 + (Z.of_nat (nat_of_ascii c) - 48))
  end.

(** [s] does not start with a decimal digit. *)
Definition stops (s : string) : Prop :=
  match s with
  | EmptyString => True
  | String c _ => is_decimal c = false
  end.

(** The value of a decimal numeral read after [acc]. *)
Fixpoint uint_val (d : Decimal.uint) (acc : Z) : Z :=
  match d with
  | Decimal.Nil => acc
  | Decimal.D0 d => uint_val d (acc * 10 + 0)
  | Decimal.D1 d => uint_val d (acc * 10 + 1)
  | Decimal.D2 d => uint_val d (acc * 10 + 2)
  | Decimal.D3 d => uint_val d (acc * 10 + 3)
  | Decimal.D4 d => uint_val d (acc * 10 + 4)
  | Decimal.D5 d => uint_val d (acc * 10 + 5)
  | Decimal.D6 d => uint_val d (acc * 10 + 6)
  | Decimal.D7 d => uint_val d (acc * 10 + 7)
  | Decimal.D8 d => uint_val d (acc * 10 + 8)
  | Decimal.D9 d => uint_val d (acc * 10 + 9)
  end.

Definition not_white (c : ascii) : bool := negb (JS.is_white_space c).

(** The characters after a leading 0 that start a literal in another
    base. *)
Definition base_letter (c : ascii) : bool :=
  (Ascii.eqb c "x" || Ascii.eqb c "X" || Ascii.eqb c "o" || Ascii.eqb c "O"
   || Ascii.eqb c "b" || Ascii.eqb c "B")%bool.

(** The characters of the numerals [Number::toString] writes for a
    positive integer. *)
Definition numeral_char (c : ascii) : bool :=
  (is_decimal c || Ascii.eqb c "." || Ascii.eqb c "e" || Ascii.eqb c "+")%bool.

(** A record that passes both validators. *)
Definition valid_record (u : IUser.t) : Prop :=
  UserService.validateName (IUser.name u) = createSuccess (Some true)
  /\ UserService.validateEmail (IUser.email u) = createSuccess (Some true).

(** The order of the ids the service issues. *)
Definition id_lt (x y : JS.number) : Prop :=
  match x, y with
  | JS.Int a, JS.Int b => a < b
  | _, _ => False
  end.

(** The invariant, with the validity of the records and their order. *)
Definition sound (n : Z) (s : UserService.t) : Prop :=
  wf n s
  /\ Forall valid_record (records s)
  /\ StronglySorted id_lt (List.map IUser.id (records s)).

(** ** The Result combinators *)

Section ResultLaws.
Context {A B C : Type}.

Lemma or_nonempty (m d : string) : m <> EmptyString -> JS.or (Some m) d = m.
Proof. destruct m; [congruence | reflexivity]. Qed.

Lemma or_default_nonempty (a : option string) (d : string) :
  d <> EmptyString -> JS.or a d <> EmptyString.
Proof. destruct a as [[|c s]|]; simpl; congruence. Qed.

Lemma map_createSuccess (x : A) (f : A -> option B) :
  ResultUtils.map (createSuccess (Some x)) f = createSuccess (f x).
Proof. reflexivity. Qed.

Lemma flatMap_createSuccess (x : A) (f : A -> IResult B) :
  ResultUtils.flatMap (createSuccess (Some x)) f = f x.
Proof. reflexivity. Qed.

Lemma map_failure (r : IResult A) (f : A -> option B) :
  success r = false ->
  ResultUtils.map r f = createError (JS.or (error r) "Unknown error").
Proof. intros H. unfold ResultUtils.map. rewrite H. reflexivity. Qed.

Lemma flatMap_failure (r : IResult A) (f : A -> IResult B) :
  success r = false ->
  ResultUtils.flatMap r f = createError (JS.or (error r) "Unknown error").
Proof. intros H. unfold ResultUtils.flatMap. rewrite H. reflexivity. Qed.

Lemma map_compose (r : IResult A) (f : A -> B) (g : B -> option C) :
  ResultUtils.map (ResultUtils.map r (fun a => Some (f a))) g
  = ResultUtils.map r (fun a => g (f a)).
Proof.
  destruct r as [[|] [d|] e]; unfold ResultUtils.map; simpl; try reflexivity;
    destruct e as [[|c s]|]; reflexivity.
Qed.
End ResultLaws.

(** C7, as amended.  For every value [x] other than [undefined], [map]
    satisfies the identity law [map(ok(x), id) == ok(x)] and [flatMap] the
    left identity law [flatMap(ok(x), h) == h(x)] and the right identity
    law at [ok(x)]; the composition law
    [map(map(r, f), g) == map(r, compose(g, f))] holds for every result
    record [r] and all functions [f] and [g] where [f] does not return
    [undefined]; the right identity law [flatMap(r, ok) == r] holds for
    every [r] built by [err] from a message that is not the empty
    string. *)
Theorem map_flatMap_laws :
  forall (A B C : Type) (x : A) (r : IResult A)
         (f : A -> B) (g : B -> option C) (h : A -> IResult B) (m : string),
    ResultUtils.map (createSuccess (Some x)) (fun a => Some a)
    = createSuccess (Some x)
    /\ ResultUtils.map (ResultUtils.map r (fun a => Some (f a))) g
       = ResultUtils.map r (fun a => g (f a))
    /\ ResultUtils.flatMap (createSuccess (Some x)) h = h x
    /\ ResultUtils.flatMap (createSuccess (Some x))
         (fun a => createSuccess (Some a))
       = createSuccess (Some x)
    /\ (m <> EmptyString ->
        ResultUtils.flatMap (createError m)
          (fun a : A => createSuccess (Some a))
        = createError m).
Proof.
  intros. repeat split; try reflexivity.
  - apply map_compose.
  - intros Hm. destruct m; [congruence | reflexivity].
Qed.

Lemma map_flatMap_laws_witness :
  "boom" <> EmptyString
  /\ ResultUtils.flatMap (createError "boom")
       (fun a : nat => createSuccess (Some a))
     = createError "boom".
Proof.
  split; [discriminate |].
  apply (map_flatMap_laws nat nat nat 0%nat (createSuccess (Some 0%nat)) S
           (fun n => Some (S n)) (fun n => createSuccess (Some n)) "boom").
  discriminate.
Defined.

(** C7 as stated fails.  The right identity law [flatMap(r, ok) == r]
    does not hold at [r = err(m)] for the empty message [m], which
    [flatMap] replaces.  At [x = undefined] the identity law of [map] and
    the left identity law of [flatMap] do not hold: [ok(undefined)] is
    answered with the error "Data is undefined".  The composition law
    does not hold at [r = ok(1)] when [f] returns [undefined]: the second
    [map] fails, where [map(r, compose(g, f))] is [ok(g(undefined))]. *)
Lemma map_flatMap_laws_counterexample :
  ResultUtils.flatMap (createError EmptyString)
    (fun a : nat => createSuccess (Some a))
  <> createError EmptyString
  /\ ResultUtils.map (@createSuccess nat None) (fun a => Some a)
     <> createSuccess None
  /\ (let h (v : option nat) : IResult nat := createSuccess (Some 0%nat) in
      ResultUtils.flatMap (@createSuccess nat None) (fun a => h (Some a))
      <> h None)
  /\ (let f (a : nat) : option nat := None in
      let g (v : option nat) : option nat := Some 0%nat in
      ResultUtils.map (ResultUtils.map (createSuccess (Some 1%nat)) f)
        (fun b => g (Some b))
      <> ResultUtils.map (createSuccess (Some 1%nat)) (fun a => g (f a))).
Proof. repeat split; discriminate. Qed.

(** C8, as amended.  [unwrapOr(ok(x), d) == x] for every value [x] other
    than [undefined], [unwrapOr(ok(undefined), d) == d], and
    [unwrapOr(err(m), d) == d], for all values [d] and every error message
    [m]. *)
Theorem unwrapOr_round_trip :
  forall (T : Type) (x : T) (d : option T) (m : string),
    ResultUtils.unwrapOr (createSuccess (Some x)) d = Some x
    /\ ResultUtils.unwrapOr (createSuccess None) d = d
    /\ ResultUtils.unwrapOr (createError m) d = d.
Proof. intros. repeat split. Qed.

(** C8 as stated fails at [x = undefined]: [unwrapOr(ok(undefined), 7)]
    is 7, not [undefined]. *)
Lemma unwrapOr_undefined_counterexample :
  ResultUtils.unwrapOr (@createSuccess nat None) (Some 7%nat) = Some 7%nat
  /\ ResultUtils.unwrapOr (@createSuccess nat None) (Some 7%nat) <> None.
Proof. split; [reflexivity | discriminate]. Qed.

(** C9, as amended.  For every Err result and every mapper, [map] and
    [flatMap] return the Err built from the original message when that
    message is a non-empty string, and the Err built from the default
    message "Unknown error" when the original message is absent or is the
    empty string. *)
Theorem map_flatMap_propagate_error :
  forall (A B : Type) (r : IResult A) (f : A -> option B)
         (g : A -> IResult B),
    success r = false ->
    (forall m, error r = Some m -> m <> EmptyString ->
               ResultUtils.map r f = createError m
               /\ ResultUtils.flatMap r g = createError m)
    /\ (error r = None \/ error r = Some EmptyString ->
        ResultUtils.map r f = createError "Unknown error"
        /\ ResultUtils.flatMap r g = createError "Unknown error").
Proof.
  intros A B r f g Hr.
  rewrite (map_failure r f Hr), (flatMap_failure r g Hr). split.
  - intros m Hm Hne. rewrite Hm, or_nonempty by assumption. split; reflexivity.
  - intros [Hm | Hm]; rewrite Hm; split; reflexivity.
Qed.

Lemma map_flatMap_propagate_error_witness :
  ResultUtils.map (@createError nat "boom") (fun n => Some (S n))
  = createError "boom"
  /\ ResultUtils.flatMap (@createError nat "boom")
       (fun n => createSuccess (Some (S n)))
     = createError "boom".
Proof.
  apply (proj1 (map_flatMap_propagate_error nat nat (createError "boom")
                  (fun n => Some (S n))
                  (fun n => createSuccess (Some (S n))) eq_refl) "boom");
    [reflexivity | discriminate].
Defined.

(** C9 as stated fails: the empty message of an Err is present, and [map] and
    [flatMap] still replace it by the default message. *)
Lemma map_flatMap_empty_message_counterexample :
  success (@createError nat EmptyString) = false
  /\ error (@createError nat EmptyString) = Some EmptyString
  /\ error (ResultUtils.map (@createError nat EmptyString)
              (fun n => Some (S n)))
     = Some "Unknown error"
  /\ error (ResultUtils.flatMap (@createError nat EmptyString)
              (fun n => createSuccess (Some (S n))))
     = Some "Unknown error"
  /\ error (ResultUtils.map (@createError nat EmptyString)
              (fun n => Some (S n)))
     <> error (@createError nat EmptyString).
Proof. repeat split; discriminate. Qed.

(** ** Regular expression matching *)

Section RegExpFacts.
Import RegExp.
Local Open Scope string_scope.

Lemma append_nil_r (s : string) : s ++ EmptyString = s.
Proof. induction s; simpl; congruence. Qed.

Lemma append_assoc (a b c : string) : (a ++ b) ++ c = a ++ (b ++ c).
Proof. induction a; simpl; congruence. Qed.

Lemma append_eq_nil (a b : string) :
  a ++ b = EmptyString -> a = EmptyString /\ b = EmptyString.
Proof. destruct a; simpl; [auto | discriminate]. Qed.

Lemma Matches_Void (s : string) : ~ Matches Void s.
Proof. intros H. inversion H. Qed.

Lemma Matches_Eps (s : string) : Matches Eps s <-> s = EmptyString.
Proof. split; [intros H; inversion H; reflexivity | intros ->; constructor]. Qed.

Lemma Matches_Class (p : ascii -> bool) (s : string) :
  Matches (Class p) s <-> exists c, p c = true /\ s = String c EmptyString.
Proof.
  split.
  - intros H. inversion H; subst. eauto.
  - intros (c & Hc & ->). constructor. exact Hc.
Qed.

Lemma Matches_Seq (r1 r2 : t) (s : string) :
  Matches (Seq r1 r2) s
  <-> exists s1 s2, s = s1 ++ s2 /\ Matches r1 s1 /\ Matches r2 s2.
Proof.
  split.
  - intros H. inversion H; subst. eauto.
  - intros (s1 & s2 & -> & H1 & H2). constructor; assumption.
Qed.

Lemma Matches_Alt (r1 r2 : t) (s : string) :
  Matches (Alt r1 r2) s <-> Matches r1 s \/ Matches r2 s.
Proof.
  split.
  - intros H. inversion H; subst; auto.
  - intros [H | H]; [apply MAltL | apply MAltR]; exact H.
Qed.

Lemma nullable_Matches (r : t) : nullable r = true <-> Matches r EmptyString.
Proof.
  induction r; simpl.
  - split; [discriminate | intros H; inversion H].
  - split; [constructor | reflexivity].
  - split; [discriminate | intros H; inversion H].
  - rewrite andb_true_iff, IHr1, IHr2, Matches_Seq. split.
    + intros [H1 H2]. exists EmptyString, EmptyString. auto.
    + intros (s1 & s2 & E & H1 & H2). symmetry in E.
      apply append_eq_nil in E. destruct E; subst. auto.
  - rewrite orb_true_iff, IHr1, IHr2, Matches_Alt. tauto.
  - split; [constructor | reflexivity].
Qed.

Lemma seq_Matches (r1 r2 : t) (s : string) :
  Matches (seq r1 r2) s <-> Matches (Seq r1 r2) s.
Proof.
  rewrite Matches_Seq.
  assert (HV1 : forall r, Matches Void s <->
            exists s1 s2, s = s1 ++ s2 /\ Matches Void s1 /\ Matches r s2).
  { intros r. split; [intros H; inversion H|].
    intros (s1 & s2 & _ & H & _). inversion H. }
  assert (HV2 : forall r, Matches Void s <->
            exists s1 s2, s = s1 ++ s2 /\ Matches r s1 /\ Matches Void s2).
  { intros r. split; [intros H; inversion H|].
    intros (s1 & s2 & _ & _ & H). inversion H. }
  assert (HE1 : forall r, Matches r s <->
            exists s1 s2, s = s1 ++ s2 /\ Matches Eps s1 /\ Matches r s2).
  { intros r. split.
    - intros H. exists EmptyString, s. repeat split; [constructor | exact H].
    - intros (s1 & s2 & -> & H1 & H2). apply Matches_Eps in H1. subst.
      exact H2. }
  assert (HE2 : forall r, Matches r s <->
            exists s1 s2, s = s1 ++ s2 /\ Matches r s1 /\ Matches Eps s2).
  { intros r. split.
    - intros H. exists s, EmptyString. rewrite append_nil_r.
      repeat split; [exact H | constructor].
    - intros (s1 & s2 & -> & H1 & H2). apply Matches_Eps in H2. subst.
      rewrite append_nil_r. exact H1. }
  destruct r1, r2; simpl;
    first [apply HV1 | apply HV2 | apply HE1 | apply HE2 | apply Matches_Seq].
Qed.

Lemma alt_Matches (r1 r2 : t) (s : string) :
  Matches (alt r1 r2) s <-> Matches (Alt r1 r2) s.
Proof.
  rewrite Matches_Alt.
  assert (HV : forall r, (Matches r s <-> Matches Void s \/ Matches r s)
                         /\ (Matches r s <-> Matches r s \/ Matches Void s)).
  { intros r. split; split; auto; intros [H | H]; auto; inversion H. }
  destruct r1, r2; simpl;
    first [apply (proj1 (HV _)) | apply (proj2 (HV _)) | apply Matches_Alt].
Qed.

(** A match of [Star r] that starts with [c] starts with a match of [r]
    that starts with [c]. *)
Lemma Matches_Star_cons (r : t) (c : ascii) (s : string) :
  Matches (Star r) (String c s) ->
  exists s1 s2, s = s1 ++ s2 /\ Matches r (String c s1) /\ Matches (Star r) s2.
Proof.
  intros H. remember (Star r) as r' eqn:Er. remember (String c s) as s' eqn:Es.
  revert s Es. induction H; intros s0 Es; try discriminate.
  injection Er as ->. destruct s1 as [|c1 s1']; simpl in Es.
  - apply IHMatches2; [reflexivity | exact Es].
  - injection Es as -> <-. exists s1', s2. auto.
Qed.

Lemma deriv_Matches (c : ascii) (r : t) :
  forall s, Matches (deriv c r) s <-> Matches r (String c s).
Proof.
  induction r; intros s; simpl.
  - split; intros H; inversion H.
  - split; intros H; inversion H.
  - rewrite Matches_Class. destruct (p c) eqn:E.
    + rewrite Matches_Eps. split.
      * intros ->. eauto.
      * intros (c' & _ & [= _ ->]). reflexivity.
    + split; [intros H; inversion H|].
      intros (c' & Hc & [= <- _]). congruence.
  - rewrite alt_Matches, Matches_Alt, seq_Matches, !Matches_Seq. split.
    + intros [(s1 & s2 & -> & H1 & H2) | H].
      * exists (String c s1), s2. rewrite <- IHr1. auto.
      * destruct (nullable r1) eqn:E; [|inversion H].
        exists EmptyString, (String c s). rewrite <- IHr2.
        rewrite <- nullable_Matches. auto.
    + intros (s1 & s2 & E & H1 & H2). destruct s1 as [|c1 s1]; simpl in E.
      * right. subst s2. apply nullable_Matches in H1. rewrite H1.
        apply IHr2. exact H2.
      * injection E as <- ->. left. exists s1, s2. rewrite IHr1. auto.
  - rewrite alt_Matches, !Matches_Alt, IHr1, IHr2. tauto.
  - rewrite seq_Matches, Matches_Seq. split.
    + intros (s1 & s2 & -> & H1 & H2). apply IHr in H1.
      change (String c (s1 ++ s2)) with (String c s1 ++ s2).
      constructor; assumption.
    + intros H. apply Matches_Star_cons in H.
      destruct H as (s1 & s2 & -> & H1 & H2). exists s1, s2.
      rewrite IHr. auto.
Qed.

(** [test] decides [Matches]. *)
Lemma test_Matches (s : string) :
  forall r, test r s = true <-> Matches r s.
Proof.
  induction s as [|c s IH]; intros r; simpl.
  - apply nullable_Matches.
  - rewrite IH. apply deriv_Matches.
Qed.
Lemma Matches_Char (c : ascii) (s : string) :
  Matches (Char c) s <-> s = String c EmptyString.
Proof.
  unfold Char. rewrite Matches_Class. split.
  - intros (c' & Hc & ->). apply Ascii.eqb_eq in Hc. congruence.
  - intros ->. exists c. split; [apply Ascii.eqb_refl | reflexivity].
Qed.

Lemma Matches_Star_Class (p : ascii -> bool) (s : string) :
  Matches (Star (Class p)) s <-> all_chars p s = true.
Proof.
  split.
  - intros H. remember (Star (Class p)) as r eqn:Er.
    induction H; try discriminate; [reflexivity|].
    injection Er as ->. apply Matches_Class in H.
    destruct H as (c & Hc & ->). simpl. rewrite Hc. apply IHMatches2.
    reflexivity.
  - induction s as [|c s IH]; simpl; [constructor|].
    rewrite andb_true_iff. intros [Hc Hs].
    change (String c s) with (String c EmptyString ++ s).
    constructor; [constructor; exact Hc | apply IH, Hs].
Qed.

Lemma Matches_Plus_Class (p : ascii -> bool) (s : string) :
  Matches (Plus (Class p)) s <-> s <> EmptyString /\ all_chars p s = true.
Proof.
  unfold Plus. rewrite Matches_Seq. split.
  - intros (s1 & s2 & -> & H1 & H2). apply Matches_Class in H1.
    destruct H1 as (c & Hc & ->). apply Matches_Star_Class in H2.
    simpl. rewrite Hc, H2. split; [discriminate | reflexivity].
  - intros [Hne H]. destruct s as [|c s]; [congruence|]. simpl in H.
    apply andb_true_iff in H. destruct H as [Hc Hs].
    exists (String c EmptyString), s. repeat split.
    + constructor. exact Hc.
    + apply Matches_Star_Class. exact Hs.
Qed.

(** The strings the email pattern accepts: [local@domain.tld], each of
    the three parts an [email_part]. *)
Lemma emailRegex_test (s : string) :
  RegExp.test UserService.emailRegex s = true
  <-> exists l d t,
        s = l ++ "@" ++ d ++ "." ++ t
        /\ email_part l /\ email_part d /\ email_part t.
Proof.
  rewrite test_Matches. unfold UserService.emailRegex, email_part. split.
  - intros H.
    apply Matches_Seq in H. destruct H as (l & s1 & -> & Hl & H).
    apply Matches_Seq in H. destruct H as (a & s2 & -> & Ha & H).
    apply Matches_Seq in H. destruct H as (d & s3 & -> & Hd & H).
    apply Matches_Seq in H. destruct H as (b & t & -> & Hb & Ht).
    apply Matches_Char in Ha, Hb. subst a b.
    apply Matches_Plus_Class in Hl, Hd, Ht.
    exists l, d, t. auto.
  - intros (l & d & t & -> & Hl & Hd & Ht).
    apply Matches_Plus_Class in Hl, Hd, Ht.
    repeat (constructor; try assumption);
      apply Matches_Char; reflexivity.
Qed.
End RegExpFacts.

(** ** Map lookups and updates *)

Local Open Scope list_scope.

Section MapFacts.
Context {V : Type}.
Implicit Types (m : JsMap.t V) (k q : JS.number) (v : V).

Lemma SameValueZero_true k q :
  JS.SameValueZero k q = true <-> JS.normalize_key k = JS.normalize_key q.
Proof.
  unfold JS.SameValueZero.
  destruct (JS.number_eq_dec _ _); split; congruence.
Qed.

Lemma SameValueZero_refl k : JS.SameValueZero k k = true.
Proof. apply SameValueZero_true. reflexivity. Qed.

Lemma SameValueZero_Int z q :
  z <> 0 -> JS.SameValueZero (JS.Int z) q = true -> q = JS.Int z.
Proof.
  intros Hz H. apply SameValueZero_true in H. simpl in H.
  destruct q; simpl in H; congruence.
Qed.

Lemma get_None q m : JsMap.get q m = None <-> misses q m.
Proof.
  unfold misses. induction m as [|[k v] m IH]; simpl.
  - split; auto.
  - destruct (JS.SameValueZero k q) eqn:E; split; intros H.
    + discriminate.
    + inversion H; subst. simpl in *. congruence.
    + constructor; [exact E | apply IH, H].
    + inversion H; subst. apply IH. assumption.
Qed.

Lemma get_Some q m v :
  JsMap.get q m = Some v ->
  exists m1 k m2, m = m1 ++ (k, v) :: m2
                  /\ JS.SameValueZero k q = true /\ misses q m1.
Proof.
  unfold misses. induction m as [|[k v'] m IH]; simpl; [discriminate|].
  destruct (JS.SameValueZero k q) eqn:E; intros H.
  - inversion H; subst. exists [], k, m. auto.
  - destruct (IH H) as (m1 & k' & m2 & -> & Hk & Hm).
    exists ((k, v') :: m1), k', m2. repeat split; auto.
Qed.

Lemma get_at q m1 k v m2 :
  misses q m1 -> JS.SameValueZero k q = true ->
  JsMap.get q (m1 ++ (k, v) :: m2) = Some v.
Proof.
  intros Hm Hk. induction Hm as [|[k' v'] m1 E Hm IH]; simpl in *.
  - rewrite Hk. reflexivity.
  - rewrite E. exact IH.
Qed.

Lemma has_get q m :
  JsMap.has q m = true <-> exists v, JsMap.get q m = Some v.
Proof.
  unfold JsMap.has. destruct (JsMap.get q m).
  - split; eauto.
  - split; [discriminate | intros [v H]; discriminate].
Qed.

Lemma set_fresh q v m :
  misses q m -> JsMap.set q v m = m ++ [(JS.normalize_key q, v)].
Proof.
  intros Hm. induction Hm as [|[k' v'] m E Hm IH]; simpl in *.
  - reflexivity.
  - rewrite E, IH. reflexivity.
Qed.

Lemma set_at q v m1 k v0 m2 :
  misses q m1 -> JS.SameValueZero k q = true ->
  JsMap.set q v (m1 ++ (k, v0) :: m2) = m1 ++ (k, v) :: m2.
Proof.
  intros Hm Hk. induction Hm as [|[k' v'] m1 E Hm IH]; simpl in *.
  - rewrite Hk. reflexivity.
  - rewrite E, IH. reflexivity.
Qed.

Lemma delete_at q m1 k v0 m2 :
  misses q m1 -> JS.SameValueZero k q = true ->
  JsMap.delete q (m1 ++ (k, v0) :: m2) = m1 ++ m2.
Proof.
  intros Hm Hk. induction Hm as [|[k' v'] m1 E Hm IH]; simpl in *.
  - rewrite Hk. reflexivity.
  - rewrite E, IH. reflexivity.
Qed.

Lemma keys_app m1 m2 : JsMap.keys (m1 ++ m2) = JsMap.keys m1 ++ JsMap.keys m2.
Proof. apply map_app. Qed.

Lemma values_app m1 m2 :
  JsMap.values (m1 ++ m2) = JsMap.values m1 ++ JsMap.values m2.
Proof. apply map_app. Qed.

(** Among distinct non-zero integer keys, only the entry itself has the
    key of an entry. *)
Lemma misses_before z m1 v m2 :
  z <> 0 ->
  NoDup (JsMap.keys (m1 ++ (JS.Int z, v) :: m2)) ->
  misses (JS.Int z) m1.
Proof.
  intros Hz Hnd. rewrite keys_app in Hnd. simpl in Hnd.
  apply NoDup_remove_2 in Hnd.
  unfold misses. apply Forall_forall. intros [k v'] Hin. simpl.
  destruct (JS.SameValueZero k (JS.Int z)) eqn:E; [|reflexivity].
  exfalso. apply Hnd. apply in_or_app. left.
  apply SameValueZero_true in E. simpl in E.
  assert (k = JS.Int z) by (destruct k; simpl in E; congruence). subst k.
  change (JS.Int z) with (fst (JS.Int z, v')).
  apply in_map. exact Hin.
Qed.
End MapFacts.

(** ** The validators and the email scan *)

Lemma validateName_cases (name : string) :
  (name = EmptyString
   /\ UserService.validateName name = createError "Name cannot be empty")
  \/ (name <> EmptyString /\ (50 < String.length name)%nat
      /\ UserService.validateName name
         = createError "Name cannot exceed 50 characters")
  \/ (name <> EmptyString /\ (String.length name <= 50)%nat
      /\ UserService.validateName name = createSuccess (Some true)).
Proof.
  unfold UserService.validateName, GoLikeValidator.isNotEmpty.
  destruct name as [|c r]; [left; split; reflexivity |].
  right. destruct (Nat.ltb_spec 50 (String.length (String c r))).
  - left. repeat split; first [discriminate | assumption | reflexivity].
  - right. repeat split; first [discriminate | assumption | reflexivity].
Qed.

Lemma validateEmail_cases (email : string) :
  (email = EmptyString
   /\ UserService.validateEmail email = createError "Email cannot be empty")
  \/ (email <> EmptyString
      /\ RegExp.test UserService.emailRegex email = false
      /\ UserService.validateEmail email = createError "Invalid email format")
  \/ (email <> EmptyString
      /\ RegExp.test UserService.emailRegex email = true
      /\ UserService.validateEmail email = createSuccess (Some true)).
Proof.
  unfold UserService.validateEmail, GoLikeValidator.isNotEmpty.
  destruct email as [|c r]; [left; split; reflexivity |].
  right. destruct (RegExp.test UserService.emailRegex (String c r)).
  - right. repeat split; first [discriminate | reflexivity].
  - left. repeat split; first [discriminate | reflexivity].
Qed.

Lemma find_email_None (email : string) (l : list IUser.t) :
  List.find (fun u => String.eqb (IUser.email u) email) l = None
  <-> ~ In email (List.map IUser.email l).
Proof.
  induction l as [|u l IH]; simpl.
  - split; auto.
  - destruct (String.eqb_spec (IUser.email u) email) as [E|E].
    + split; [discriminate | intros H; exfalso; apply H; auto].
    + rewrite IH. split; [intros H [H'|H']; auto | auto].
Qed.

Lemma find_email_Some (email : string) (l : list IUser.t) (u : IUser.t) :
  List.find (fun u => String.eqb (IUser.email u) email) l = Some u ->
  In u l /\ IUser.email u = email.
Proof.
  intros H. apply find_some in H. destruct H as [H E].
  split; [assumption | apply String.eqb_eq, E].
Qed.

Lemma findUserByEmail_cases (email : string) (s : UserService.t) :
  (~ In email (emails s)
   /\ UserService.findUserByEmail email s = createError "User not found")
  \/ (exists u, In u (records s) /\ IUser.email u = email
                /\ UserService.findUserByEmail email s = createSuccess (Some u)).
Proof.
  unfold UserService.findUserByEmail, emails, records.
  destruct (List.find _ _) as [u|] eqn:E.
  - right. exists u. apply find_email_Some in E. tauto.
  - left. apply find_email_None in E. tauto.
Qed.

(** ** The shape of each operation *)

Lemma createUser_success (request : IUserCreateRequest.t) (s : UserService.t) :
  UserService.validateName (IUserCreateRequest.name request)
  = createSuccess (Some true) ->
  UserService.validateEmail (IUserCreateRequest.email request)
  = createSuccess (Some true) ->
  ~ In (IUserCreateRequest.email request) (emails s) ->
  UserService.createUser request s
  = (createSuccess (Some (created request s)),
     {| UserService.users :=
          JsMap.set (UserService.nextId s) (created request s)
                    (UserService.users s);
        UserService.nextId := JS.succ (UserService.nextId s) |}).
Proof.
  intros Hn He Hf. unfold UserService.createUser. rewrite Hn, He.
  destruct (findUserByEmail_cases (IUserCreateRequest.email request) s)
    as [[_ ->] | (u & Hu & E & _)].
  - reflexivity.
  - exfalso. apply Hf. rewrite <- E. apply in_map. exact Hu.
Qed.

Lemma createUser_cases (request : IUserCreateRequest.t) (s : UserService.t) :
  (success (fst (UserService.createUser request s)) = false
   /\ snd (UserService.createUser request s) = s)
  \/ (UserService.validateName (IUserCreateRequest.name request)
      = createSuccess (Some true)
      /\ UserService.validateEmail (IUserCreateRequest.email request)
         = createSuccess (Some true)
      /\ ~ In (IUserCreateRequest.email request) (emails s)).
Proof.
  destruct (validateName_cases (IUserCreateRequest.name request))
    as [[_ Hn] | [(_ & _ & Hn) | (_ & _ & Hn)]];
    [left; unfold UserService.createUser; rewrite Hn; split; reflexivity ..|].
  destruct (validateEmail_cases (IUserCreateRequest.email request))
    as [[_ He] | [(_ & _ & He) | (_ & _ & He)]];
    [left; unfold UserService.createUser; rewrite Hn, He; split; reflexivity ..|].
  destruct (findUserByEmail_cases (IUserCreateRequest.email request) s)
    as [[Hf _] | (u & _ & _ & Hf)].
  - right. auto.
  - left. unfold UserService.createUser. rewrite Hn, He, Hf.
    split; reflexivity.
Qed.

Lemma toNumber_string_cases (id : string) :
  (exists e, e <> EmptyString
             /\ TypeConverter.toNumber (JS.VString id) = createError e)
  \/ (exists n, TypeConverter.toNumber (JS.VString id) = createSuccess (Some n)).
Proof.
  unfold TypeConverter.toNumber. destruct (JS.isNaN (JS.Number id)).
  - left. eexists. split; [|reflexivity]. discriminate.
  - right. eexists. reflexivity.
Qed.

Lemma getUserById_cases (id : string) (s : UserService.t) :
  (exists e, TypeConverter.toNumber (JS.VString id) = createError e
             /\ UserService.getUserById id s
                = createError ("Invalid ID format: " ++ e)%string)
  \/ (exists n, TypeConverter.toNumber (JS.VString id) = createSuccess (Some n)
                /\ JsMap.get n (UserService.users s) = None
                /\ UserService.getUserById id s
                   = createError ("User not found with ID: "
                                  ++ JS.ToString n)%string)
  \/ (exists n u, TypeConverter.toNumber (JS.VString id) = createSuccess (Some n)
                  /\ JsMap.get n (UserService.users s) = Some u
                  /\ UserService.getUserById id s = createSuccess (Some u)).
Proof.
  unfold UserService.getUserById.
  destruct (toNumber_string_cases id) as [(e & Hne & ->) | (n & ->)].
  - left. exists e. split; [reflexivity|].
    cbn [success error createError negb]. rewrite or_nonempty by assumption.
    reflexivity.
  - right. cbn [success data createSuccess negb].
    destruct (JsMap.get n (UserService.users s)) as [u|] eqn:E.
    + right. exists n, u. auto.
    + left. exists n. auto.
Qed.

Lemma updateUser_not_found (id : string) (updates : PartialRequest.t)
    (s : UserService.t) :
  success (UserService.getUserById id s) = false ->
  success (fst (UserService.updateUser id updates s)) = false
  /\ snd (UserService.updateUser id updates s) = s.
Proof.
  intros H. unfold UserService.updateUser. rewrite H. split; reflexivity.
Qed.

Lemma updateUser_cases (id : string) (updates : PartialRequest.t)
    (s : UserService.t) :
  (success (fst (UserService.updateUser id updates s)) = false
   /\ snd (UserService.updateUser id updates s) = s)
  \/ (exists existing,
         UserService.getUserById id s = createSuccess (Some existing)
         /\ (forall n, PartialRequest.name updates = Some n -> n <> EmptyString)
         /\ (forall e, PartialRequest.email updates = Some e ->
               e <> EmptyString
               /\ (~ In e (emails s)
                   \/ exists other,
                        In other (records s) /\ IUser.email other = e
                        /\ JS.strict_eq (IUser.id other) (IUser.id existing)
                           = true))
         /\ UserService.updateUser id updates s
            = (createSuccess (Some (updated updates existing)),
               {| UserService.users :=
                    JsMap.set (IUser.id existing) (updated updates existing)
                              (UserService.users s);
                  UserService.nextId := UserService.nextId s |})).
Proof.
  destruct (getUserById_cases id s)
    as [(e & _ & Hg) | [(n & _ & _ & Hg) | (n & u & _ & _ & Hg)]];
    [left; apply updateUser_not_found; rewrite Hg; reflexivity ..|].
  unfold UserService.updateUser. rewrite Hg.
  cbn [success data createSuccess negb].
  destruct updates as [[nm|] [em|]]; cbn [PartialRequest.name PartialRequest.email].
  all: try (destruct (validateName_cases nm)
      as [[_ Hn] | [(_ & _ & Hn) | (Hnm & _ & Hn)]];
    rewrite Hn; cbn [success error createError createSuccess negb JS.or];
    [left; split; reflexivity ..|]).
  all: try (destruct (validateEmail_cases em)
      as [[_ He] | [(_ & _ & He) | (Hem & _ & He)]];
    rewrite He; cbn [success error createError createSuccess negb JS.or];
    [left; split; reflexivity ..|];
    destruct (findUserByEmail_cases em s) as [[Hf ->] | (o & Ho & Eo & ->)];
    cbn [success data createError createSuccess andb negb];
    [| destruct (JS.strict_eq (IUser.id o) (IUser.id u)) eqn:Eq;
       cbn [negb]; [| left; split; reflexivity]]).
  all: right; exists u; split; [reflexivity|];
    (split; [intros ? [= <-]; assumption || discriminate
            | split; [|reflexivity]]).
  all: try (intros ? [=]; fail).
  all: intros ? [= <-]; split; [assumption|]; eauto 6.
Qed.

Lemma deleteUser_cases (id : string) (s : UserService.t) :
  (success (fst (UserService.deleteUser id s)) = false
   /\ snd (UserService.deleteUser id s) = s)
  \/ (exists n u, JsMap.get n (UserService.users s) = Some u
                  /\ UserService.deleteUser id s
                     = (createSuccess (Some true),
                        {| UserService.users :=
                             JsMap.delete n (UserService.users s);
                           UserService.nextId := UserService.nextId s |})).
Proof.
  unfold UserService.deleteUser.
  destruct (toNumber_string_cases id) as [(e & Hne & ->) | (n & ->)].
  - left. split; reflexivity.
  - cbn [success data createSuccess negb]. unfold JsMap.has.
    destruct (JsMap.get n (UserService.users s)) as [u|] eqn:E.
    + right. exists n, u. split; [exact E | reflexivity].
    + left. split; reflexivity.
Qed.

(** ** The invariant is kept *)

Lemma strict_eq_Int (a b : Z) :
  JS.strict_eq (JS.Int a) (JS.Int b) = true -> a = b.
Proof.
  unfold JS.strict_eq.
  destruct (JS.number_eq_dec (JS.Int a) (JS.Int b)) as [E|E];
    [intros _; congruence|].
  destruct a, b; discriminate.
Qed.

Lemma entry_ok_mono (n n' : Z) (e : JS.number * IUser.t) :
  n <= n' -> entry_ok n e -> entry_ok n' e.
Proof. intros Hn (z & Hz & H). exists z. split; [lia | exact H]. Qed.

Lemma emails_split (m1 m2 : JsMap.t IUser.t) (k : JS.number) (u : IUser.t)
    (n : JS.number) :
  emails {| UserService.users := m1 ++ (k, u) :: m2; UserService.nextId := n |}
  = List.map IUser.email (JsMap.values m1)
    ++ IUser.email u :: List.map IUser.email (JsMap.values m2).
Proof.
  unfold emails, records. cbn [UserService.users].
  rewrite values_app, map_app. reflexivity.
Qed.

Lemma wf_new : wf 1 UserService.new.
Proof. split; simpl; try constructor; reflexivity || lia. Qed.

Lemma wf_get (n : Z) (s : UserService.t) (q : JS.number) (u : IUser.t) :
  wf n s -> JsMap.get q (UserService.users s) = Some u ->
  exists m1 m2 z,
    UserService.users s = m1 ++ (JS.Int z, u) :: m2
    /\ 1 <= z < n /\ IUser.id u = JS.Int z /\ q = JS.Int z
    /\ misses (JS.Int z) m1.
Proof.
  intros W H. apply get_Some in H. destruct H as (m1 & k & m2 & E & Hk & Hm).
  pose proof (wf_entries _ _ W) as Hall. rewrite E in Hall.
  apply Forall_app in Hall. destruct Hall as [_ Hall].
  inversion Hall as [|? ? (z & Hz & Hkz & Hid) _]; subst. simpl in Hkz, Hid.
  subst k. apply SameValueZero_Int in Hk; [|lia]. subst q.
  exists m1, m2, z. auto.
Qed.

Lemma wf_record (n : Z) (s : UserService.t) (u : IUser.t) :
  wf n s -> In u (records s) ->
  exists z, 1 <= z < n /\ IUser.id u = JS.Int z
            /\ JsMap.get (JS.Int z) (UserService.users s) = Some u.
Proof.
  intros W H. unfold records, JsMap.values in H.
  apply in_map_iff in H. destruct H as ([k u'] & Hu & Hin). simpl in Hu.
  subst u'. apply in_split in Hin. destruct Hin as (m1 & m2 & E).
  pose proof (wf_entries _ _ W) as Hall. rewrite E in Hall.
  apply Forall_app in Hall. destruct Hall as [_ Hall].
  inversion Hall as [|? ? (z & Hz & Hkz & Hid) _]; subst. simpl in Hkz, Hid.
  subst k. exists z. repeat split; try assumption; try lia.
  rewrite E. apply get_at; [|apply SameValueZero_refl].
  pose proof (wf_keys _ _ W) as Hnd. rewrite E in Hnd.
  apply misses_before in Hnd; [assumption | lia].
Qed.

Lemma wf_fresh (n : Z) (s : UserService.t) :
  wf n s -> misses (JS.Int n) (UserService.users s).
Proof.
  intros W. unfold misses.
  eapply Forall_impl; [|apply (wf_entries _ _ W)].
  intros [k u] (z & Hz & Hk & _). simpl in *. subst k.
  destruct (JS.SameValueZero (JS.Int z) (JS.Int n)) eqn:E; [|reflexivity].
  apply SameValueZero_Int in E; [|lia]. injection E as E. lia.
Qed.

Lemma wf_no_key (n : Z) (s : UserService.t) (z : Z) :
  wf n s -> n <= z -> ~ In (JS.Int z) (List.map IUser.id (records s)).
Proof.
  intros W Hz Hin. apply in_map_iff in Hin. destruct Hin as (u & E & Hu).
  destruct (wf_record _ _ _ W Hu) as (z' & Hz' & Hid & _).
  rewrite Hid in E. injection E as E. lia.
Qed.

Lemma wf_createUser (n : Z) (s : UserService.t)
    (request : IUserCreateRequest.t) :
  wf n s ->
  ~ In (IUserCreateRequest.email request) (emails s) ->
  wf (n + 1)
     {| UserService.users :=
          JsMap.set (UserService.nextId s) (created request s)
                    (UserService.users s);
        UserService.nextId := JS.succ (UserService.nextId s) |}.
Proof.
  intros W Hf. pose proof (wf_fresh _ _ W) as Hm.
  rewrite (wf_next _ _ W). rewrite (set_fresh _ _ _ Hm).
  split; cbn [UserService.users UserService.nextId JS.succ JS.normalize_key].
  - reflexivity.
  - pose proof (wf_pos _ _ W). lia.
  - apply Forall_app. split.
    + eapply Forall_impl; [|apply (wf_entries _ _ W)].
      intros e. apply entry_ok_mono. lia.
    + constructor; [|constructor]. exists n. pose proof (wf_pos _ _ W).
      repeat split; try lia. simpl. apply (wf_next _ _ W).
  - rewrite keys_app. simpl. apply NoDup_Add with (a := JS.Int n)
      (l := JsMap.keys (UserService.users s) ++ []).
    + apply Add_app.
    + rewrite app_nil_r. split; [apply (wf_keys _ _ W)|].
      intros Hin. apply in_map_iff in Hin.
      destruct Hin as ([k u] & Hk & Hin). simpl in Hk. subst k.
      unfold misses in Hm. rewrite Forall_forall in Hm.
      specialize (Hm _ Hin). simpl in Hm.
      rewrite SameValueZero_refl in Hm. discriminate.
  - unfold emails, records. cbn [UserService.users].
    rewrite values_app, map_app. simpl.
    apply NoDup_Add with (a := IUserCreateRequest.email request)
      (l := List.map IUser.email (JsMap.values (UserService.users s)) ++ []).
    + apply Add_app.
    + rewrite app_nil_r. split; [apply (wf_emails _ _ W) | exact Hf].
Qed.

Lemma wf_updateUser (n : Z) (s : UserService.t) (q : JS.number)
    (updates : PartialRequest.t) (existing : IUser.t) :
  wf n s ->
  JsMap.get q (UserService.users s) = Some existing ->
  (forall e, PartialRequest.email updates = Some e ->
     e <> EmptyString
     /\ (~ In e (emails s)
         \/ exists other,
              In other (records s) /\ IUser.email other = e
              /\ JS.strict_eq (IUser.id other) (IUser.id existing) = true)) ->
  wf n {| UserService.users :=
            JsMap.set (IUser.id existing) (updated updates existing)
                      (UserService.users s);
          UserService.nextId := UserService.nextId s |}.
Proof.
  intros W Hget Hem.
  destruct (wf_get _ _ _ _ W Hget) as (m1 & m2 & z & E & Hz & Hid & -> & Hm).
  assert (Hemail :
    IUser.email (updated updates existing) = IUser.email existing
    \/ ~ In (IUser.email (updated updates existing)) (emails s)).
  { unfold updated; cbn [IUser.email].
    destruct (PartialRequest.email updates) as [e|]; [|left; reflexivity].
    destruct (Hem e eq_refl) as [Hne [Hnin | (o & Ho & Eo & Hs)]];
      rewrite (or_nonempty e _ Hne).
    - right. exact Hnin.
    - left. destruct (wf_record _ _ _ W Ho) as (z' & _ & Hid' & Hget').
      rewrite Hid, Hid' in Hs. apply strict_eq_Int in Hs. subst z'.
      rewrite Hget in Hget'. injection Hget' as <-. symmetry. exact Eo. }
  rewrite Hid, E, (set_at _ _ _ _ _ _ Hm (SameValueZero_refl _)).
  pose proof (wf_entries _ _ W) as Hall.
  pose proof (wf_keys _ _ W) as Hk.
  pose proof (wf_emails _ _ W) as He.
  destruct s as [m nx]. cbn [UserService.users UserService.nextId] in *.
  subst m. split; cbn [UserService.users UserService.nextId].
  - apply (wf_next _ _ W).
  - apply (wf_pos _ _ W).
  - apply Forall_app in Hall. destruct Hall as [H1 H2].
    apply Forall_app. split; [exact H1|].
    inversion H2; subst. constructor; [|assumption].
    exists z. repeat split; try lia. exact Hid.
  - rewrite keys_app in *. exact Hk.
  - rewrite emails_split in *. destruct Hemail as [-> | Hnin]; [exact He|].
    apply (NoDup_Add (Add_app _ _ _)).
    apply (NoDup_Add (Add_app _ _ _)) in He. destruct He as [He Hnot].
    split; [exact He|]. intros Hin. apply Hnin.
    apply in_app_or in Hin. apply in_or_app. simpl. tauto.
Qed.

Lemma wf_deleteUser (n : Z) (s : UserService.t) (q : JS.number)
    (u : IUser.t) :
  wf n s ->
  JsMap.get q (UserService.users s) = Some u ->
  wf n {| UserService.users := JsMap.delete q (UserService.users s);
          UserService.nextId := UserService.nextId s |}.
Proof.
  intros W Hget.
  destruct (wf_get _ _ _ _ W Hget) as (m1 & m2 & z & E & Hz & Hid & -> & Hm).
  rewrite E, (delete_at _ _ _ _ _ Hm (SameValueZero_refl _)).
  pose proof (wf_entries _ _ W) as Hall.
  pose proof (wf_keys _ _ W) as Hk.
  pose proof (wf_emails _ _ W) as He.
  destruct s as [m nx]. cbn [UserService.users UserService.nextId] in *.
  subst m. split; cbn [UserService.users UserService.nextId].
  - apply (wf_next _ _ W).
  - apply (wf_pos _ _ W).
  - apply Forall_app in Hall. destruct Hall as [H1 H2].
    apply Forall_app. split; [exact H1|]. inversion H2; assumption.
  - rewrite keys_app in *. simpl in Hk. apply NoDup_remove_1 in Hk. exact Hk.
  - rewrite emails_split in He. apply NoDup_remove_1 in He.
    unfold emails, records. cbn [UserService.users].
    rewrite values_app, map_app. exact He.
Qed.

Lemma getUserById_success (id : string) (s : UserService.t) (u : IUser.t) :
  UserService.getUserById id s = createSuccess (Some u) ->
  exists q, TypeConverter.toNumber (JS.VString id) = createSuccess (Some q)
            /\ JsMap.get q (UserService.users s) = Some u.
Proof.
  intros H.
  destruct (getUserById_cases id s)
    as [(e & _ & Hg) | [(n & _ & _ & Hg) | (n & u' & Hn & Hget & Hg)]];
    rewrite Hg in H; try discriminate.
  injection H as ->. exists n. auto.
Qed.

Lemma step_state (o : op) (s : UserService.t) :
  snd (step o s)
  = match o with
    | Create request => snd (UserService.createUser request s)
    | Update id updates => snd (UserService.updateUser id updates s)
    | Delete id => snd (UserService.deleteUser id s)
    | GetById _ | ListAll => s
    end.
Proof.
  destruct o; reflexivity.
Qed.

Lemma wf_step (n : Z) (o : op) (s : UserService.t) :
  wf n s -> exists n', n <= n' /\ wf n' (snd (step o s)).
Proof.
  intros W. rewrite step_state. destruct o.
  - destruct (createUser_cases request s) as [[_ ->] | (Hn & He & Hf)].
    + exists n. split; [lia | exact W].
    + rewrite (createUser_success _ _ Hn He Hf). exists (n + 1).
      split; [lia | apply wf_createUser; assumption].
  - exists n. split; [lia | exact W].
  - exists n. split; [lia | exact W].
  - exists n. split; [lia|].
    destruct (updateUser_cases id updates s)
      as [[_ ->] | (u & Hg & _ & Hem & ->)]; [exact W|].
    apply getUserById_success in Hg. destruct Hg as (q & _ & Hget).
    apply (wf_updateUser _ _ q); assumption.
  - exists n. split; [lia|].
    destruct (deleteUser_cases id s) as [[_ ->] | (q & u & Hget & ->)];
      [exact W|].
    apply (wf_deleteUser _ _ q u); assumption.
Qed.

Lemma wf_run (ops : list op) :
  forall (n : Z) (s : UserService.t),
    wf n s -> exists n', n <= n' /\ wf n' (run ops s).
Proof.
  induction ops as [|o ops IH]; intros n s W; simpl.
  - exists n. split; [lia | exact W].
  - destruct (wf_step n o s W) as (n1 & Hn1 & W1).
    destruct (IH n1 _ W1) as (n2 & Hn2 & W2).
    exists n2. split; [lia | exact W2].
Qed.

Lemma wf_reachable (ops : list op) :
  exists n, wf n (run ops UserService.new).
Proof.
  destruct (wf_run ops 1 _ wf_new) as (n & _ & W). exists n. exact W.
Qed.

(** ** The claims about the store *)

(** C1.  After every sequence of public operations on a fresh store, no
    two records present in the store have the same email: the emails of
    the stored records, compared as exact strings, are pairwise
    distinct. *)
Theorem email_uniqueness :
  forall ops : list op, NoDup (emails (run ops UserService.new)).
Proof.
  intros ops. destruct (wf_reachable ops) as (n & W).
  apply (wf_emails _ _ W).
Qed.

(** What one operation does to the counter, and the id it issues. *)
Lemma step_counter (o : op) (s : UserService.t) (n : Z) :
  UserService.nextId s = JS.Int n ->
  (issued_by o (fst (step o s)) = []
   /\ UserService.nextId (snd (step o s)) = JS.Int n)
  \/ (issued_by o (fst (step o s)) = [JS.Int n]
      /\ UserService.nextId (snd (step o s)) = JS.Int (n + 1)).
Proof.
  intros Hn. destruct o; cbn [step fst snd issued_by].
  - destruct (createUser_cases request s) as [[Hf ->] | (Hv & He & Hf)].
    + left. rewrite Hf. auto.
    + right. rewrite (createUser_success _ _ Hv He Hf).
      cbn [fst snd success data createSuccess created IUser.id
           UserService.nextId].
      rewrite Hn. auto.
  - left. auto.
  - left. auto.
  - left. split; [reflexivity|].
    destruct (updateUser_cases id updates s)
      as [[_ ->] | (u & _ & _ & _ & ->)]; assumption.
  - left. split; [reflexivity|].
    destruct (deleteUser_cases id s) as [[_ ->] | (q & u & _ & ->)];
      assumption.
Qed.

(** The ids issued from a counter at [n] are [n], [n + 1], ... *)
Lemma issued_from (ops : list op) :
  forall (s : UserService.t) (n : Z),
    UserService.nextId s = JS.Int n ->
    issued ops s
    = List.map (fun i => JS.Int (n + Z.of_nat i))
               (seq 0 (List.length (issued ops s))).
Proof.
  induction ops as [|o ops IH]; intros s n Hn; [reflexivity|].
  cbn [issued].
  destruct (step_counter o s n Hn) as [[-> Hn'] | [-> Hn']].
  - apply (IH _ _ Hn').
  - cbn [app List.length seq List.map]. f_equal; [f_equal; lia|].
    rewrite <- seq_shift, map_map. rewrite (IH _ _ Hn') at 1.
    apply map_ext. intros i. f_equal. lia.
Qed.

(** C2.  Within one store, the ids assigned by the successful creates of
    any sequence of operations are 1, 2, 3, ... in creation order: they
    start at 1 and are strictly increasing, whatever was deleted in
    between, so that no id is issued twice. *)
Theorem id_monotonicity :
  forall ops : list op,
    issued ops UserService.new
    = List.map (fun i => JS.Int (Z.of_nat i))
               (seq 1 (List.length (issued ops UserService.new)))
    /\ NoDup (issued ops UserService.new).
Proof.
  intros ops.
  assert (E : issued ops UserService.new
              = List.map (fun i => JS.Int (Z.of_nat i))
                  (seq 1 (List.length (issued ops UserService.new)))).
  { rewrite (issued_from ops UserService.new 1 eq_refl) at 1.
    rewrite <- seq_shift, map_map. apply map_ext. intros i. f_equal. lia. }
  split; [exact E|]. rewrite E.
  apply Injective_map_NoDup; [|apply seq_NoDup].
  intros i j H. injection H as H. lia.
Qed.

(** C5.  Whenever a public operation returns an Err result, the store,
    that is its record mapping and its id counter, is exactly as it was
    before the call. *)
Theorem error_atomicity :
  forall (o : op) (s : UserService.t),
    succeeded (fst (step o s)) = false -> snd (step o s) = s.
Proof.
  intros o s H. destruct o; cbn [step fst snd succeeded] in *.
  - destruct (createUser_cases request s) as [[_ E] | (Hv & He & Hf)];
      [exact E|].
    rewrite (createUser_success _ _ Hv He Hf) in H. discriminate.
  - reflexivity.
  - reflexivity.
  - destruct (updateUser_cases id updates s)
      as [[_ E] | (u & _ & _ & _ & E)]; [exact E|].
    rewrite E in H. discriminate.
  - destruct (deleteUser_cases id s) as [[_ E] | (q & u & _ & E)];
      [exact E|].
    rewrite E in H. discriminate.
Qed.

Lemma error_atomicity_witness :
  snd (step (Create (IUserCreateRequest.mk EmptyString "john@example.com"))
            UserService.new)
  = UserService.new.
Proof. apply error_atomicity. reflexivity. Defined.

Lemma validateName_ok (name : string) :
  name <> EmptyString -> (String.length name <= 50)%nat ->
  UserService.validateName name = createSuccess (Some true).
Proof.
  intros Hne Hlen.
  destruct (validateName_cases name) as [[E _] | [(_ & Hgt & _) | (_ & _ & E)]];
    [congruence | lia | exact E].
Qed.

Lemma validateEmail_ok (email : string) :
  email <> EmptyString -> RegExp.test UserService.emailRegex email = true ->
  UserService.validateEmail email = createSuccess (Some true).
Proof.
  intros Hne Ht.
  destruct (validateEmail_cases email)
    as [[E _] | [(_ & Hf & _) | (_ & _ & E)]];
    [congruence | congruence | exact E].
Qed.

(** C3.  On the store reached by any sequence of operations, [create]
    checks the name (non-empty, at most 50 characters), then the email
    (non-empty, matching the pattern), and fails without touching the store
    on the first check that does not pass, with that check's message; with
    both valid it fails with "User with this email already exists" when a
    stored record has the requested email; otherwise it returns a new
    record with the requested name and email and a positive id that no
    stored record has, and the store holds that record after the ones it
    held. *)
Theorem createUser_behaviour :
  forall (ops : list op) (request : IUserCreateRequest.t),
    let s := run ops UserService.new in
    let name := IUserCreateRequest.name request in
    let email := IUserCreateRequest.email request in
    (name = EmptyString ->
     UserService.createUser request s
     = (createError "Name cannot be empty", s))
    /\ (name <> EmptyString -> (50 < String.length name)%nat ->
        UserService.createUser request s
        = (createError "Name cannot exceed 50 characters", s))
    /\ (name <> EmptyString -> (String.length name <= 50)%nat ->
        email = EmptyString ->
        UserService.createUser request s
        = (createError "Email cannot be empty", s))
    /\ (name <> EmptyString -> (String.length name <= 50)%nat ->
        email <> EmptyString ->
        RegExp.test UserService.emailRegex email = false ->
        UserService.createUser request s
        = (createError "Invalid email format", s))
    /\ (name <> EmptyString -> (String.length name <= 50)%nat ->
        email <> EmptyString ->
        RegExp.test UserService.emailRegex email = true ->
        In email (emails s) ->
        UserService.createUser request s
        = (createError "User with this email already exists", s))
    /\ (name <> EmptyString -> (String.length name <= 50)%nat ->
        email <> EmptyString ->
        RegExp.test UserService.emailRegex email = true ->
        ~ In email (emails s) ->
        exists (z : Z) (s' : UserService.t),
          let user := {| IUser.id := JS.Int z; IUser.name := name;
                         IUser.email := email |} in
          0 < z
          /\ ~ In (JS.Int z) (List.map IUser.id (records s))
          /\ UserService.createUser request s = (createSuccess (Some user), s')
          /\ records s' = records s ++ [user]).
Proof.
  intros ops request s name email. subst name email.
  repeat split.
  - intros Hn. unfold UserService.createUser. rewrite Hn. reflexivity.
  - intros Hne Hlen.
    destruct (validateName_cases (IUserCreateRequest.name request))
      as [[E _] | [(_ & _ & E) | (_ & Hle & _)]]; [congruence | | lia].
    unfold UserService.createUser. rewrite E. reflexivity.
  - intros Hne Hlen He. unfold UserService.createUser.
    rewrite (validateName_ok _ Hne Hlen), He. reflexivity.
  - intros Hne Hlen He Ht.
    destruct (validateEmail_cases (IUserCreateRequest.email request))
      as [[E _] | [(_ & _ & E) | (_ & Ht' & _)]];
      [congruence | | congruence].
    unfold UserService.createUser.
    rewrite (validateName_ok _ Hne Hlen), E. reflexivity.
  - intros Hne Hlen He Ht Hin.
    destruct (findUserByEmail_cases (IUserCreateRequest.email request) s)
      as [[Hnin _] | (u & _ & _ & E)]; [contradiction|].
    unfold UserService.createUser.
    rewrite (validateName_ok _ Hne Hlen), (validateEmail_ok _ He Ht), E.
    reflexivity.
  - intros Hne Hlen He Ht Hnin.
    destruct (wf_reachable ops) as (n & W). fold s in W.
    exists n. eexists. cbv zeta.
    rewrite (createUser_success request s (validateName_ok _ Hne Hlen)
               (validateEmail_ok _ He Ht) Hnin).
    unfold created. rewrite (wf_next _ _ W).
    split; [pose proof (wf_pos _ _ W); lia|].
    split; [apply (wf_no_key n); [exact W | lia]|].
    split; [reflexivity|].
    unfold records. cbn [UserService.users].
    rewrite (set_fresh _ _ _ (wf_fresh _ _ W)), values_app. reflexivity.
Qed.

Lemma createUser_behaviour_witness :
  exists (z : Z) (s' : UserService.t),
    let user := {| IUser.id := JS.Int z; IUser.name := "John Doe";
                   IUser.email := "john@example.com" |} in
    0 < z
    /\ ~ In (JS.Int z) (List.map IUser.id (records UserService.new))
    /\ UserService.createUser john UserService.new = (createSuccess (Some user), s')
    /\ records s' = records UserService.new ++ [user].
Proof.
  apply (createUser_behaviour [] john).
  - discriminate.
  - simpl. lia.
  - discriminate.
  - vm_compute. reflexivity.
  - simpl. tauto.
Defined.

Lemma wf_misses (n : Z) (s : UserService.t) (z : Z) :
  wf n s -> z < 1 \/ n <= z -> misses (JS.Int z) (UserService.users s).
Proof.
  intros W Hz. unfold misses.
  eapply Forall_impl; [|apply (wf_entries _ _ W)].
  intros [k u] (z' & Hz' & Hk & _). simpl in *. subst k.
  destruct (JS.SameValueZero (JS.Int z') (JS.Int z)) eqn:E; [|reflexivity].
  apply SameValueZero_Int in E; [|lia]. injection E as E. lia.
Qed.

Lemma wf_get_record (n : Z) (s : UserService.t) (q : JS.number)
    (u : IUser.t) :
  wf n s -> JsMap.get q (UserService.users s) = Some u ->
  In u (records s) /\ IUser.id u = q.
Proof.
  intros W H.
  destruct (wf_get _ _ _ _ W H) as (m1 & m2 & z & E & _ & Hid & -> & _).
  split; [|exact Hid]. unfold records. rewrite E, values_app.
  apply in_or_app. right. left. reflexivity.
Qed.

(** C6.  On the store reached by any sequence of operations, [getById]
    converts its argument with [toNumber]; when the conversion fails with
    a message, it fails with that message after "Invalid ID format: ";
    when the conversion gives a number that is the id of no stored record,
    it fails with "User not found with ID: " followed by the number; when
    a stored record has that id, it returns that record.  The conversion
    always does one or the other. *)
Theorem getUserById_behaviour :
  forall (ops : list op) (id : string),
    let s := run ops UserService.new in
    let converted := TypeConverter.toNumber (JS.VString id) in
    (forall e, converted = createError e ->
       UserService.getUserById id s
       = createError ("Invalid ID format: " ++ e)%string)
    /\ (forall n, converted = createSuccess (Some n) ->
          (forall u, In u (records s) -> IUser.id u <> n) ->
          UserService.getUserById id s
          = createError ("User not found with ID: " ++ JS.ToString n)%string)
    /\ (forall n u, converted = createSuccess (Some n) ->
          In u (records s) -> IUser.id u = n ->
          UserService.getUserById id s = createSuccess (Some u))
    /\ ((exists e, converted = createError e)
        \/ (exists n, converted = createSuccess (Some n))).
Proof.
  intros ops id s converted. subst converted.
  destruct (wf_reachable ops) as (k & W). fold s in W.
  repeat split.
  - intros e He.
    destruct (getUserById_cases id s)
      as [(e' & Hc & Hg) | [(n & Hc & _) | (n & u & Hc & _)]];
      rewrite Hc in He; try discriminate.
    injection He as <-. exact Hg.
  - intros n Hn Hnone.
    destruct (getUserById_cases id s)
      as [(e' & Hc & _) | [(n' & Hc & _ & Hg) | (n' & u & Hc & Hget & _)]];
      rewrite Hc in Hn; try discriminate; injection Hn as <-.
    + exact Hg.
    + destruct (wf_get_record _ _ _ _ W Hget) as [Hin Hid].
      exfalso. apply (Hnone u Hin Hid).
  - intros n u Hn Hin Hid.
    destruct (wf_record _ _ _ W Hin) as (z & _ & Hz & Hget).
    rewrite Hz in Hid. subst n.
    destruct (getUserById_cases id s)
      as [(e' & Hc & _) | [(n' & Hc & Hnone & _) | (n' & u' & Hc & Hget' & Hg)]];
      rewrite Hc in Hn; try discriminate; injection Hn as ->.
    + rewrite Hget in Hnone. discriminate.
    + rewrite Hget in Hget'. injection Hget' as <-. exact Hg.
  - destruct (toNumber_string_cases id) as [(e & _ & H) | (n & H)]; eauto.
Qed.

Lemma getUserById_behaviour_witness :
  UserService.getUserById "999" (run [] UserService.new)
  = createError ("User not found with ID: " ++ JS.ToString (JS.Int 999))%string.
Proof.
  apply (getUserById_behaviour [] "999").
  - reflexivity.
  - intros u [].
Defined.

(** C10.  [toNumber] of the empty string is Ok(0); no store reached by a
    sequence of operations holds a record with id 0, and on every such
    store [getById] and [delete] of the empty string fail with
    "User not found with ID: 0", not with an "Invalid ID format" error,
    [delete] leaving the store as it was. *)
Theorem empty_id_not_found :
  TypeConverter.toNumber (JS.VString EmptyString) = createSuccess (Some (JS.Int 0))
  /\ forall ops : list op,
       let s := run ops UserService.new in
       (forall u, In u (records s) -> IUser.id u <> JS.Int 0)
       /\ UserService.getUserById EmptyString s
          = createError "User not found with ID: 0"
       /\ UserService.deleteUser EmptyString s
          = (createError "User not found with ID: 0", s).
Proof.
  split; [reflexivity|]. intros ops s.
  destruct (wf_reachable ops) as (n & W). fold s in W.
  assert (Hnone : JsMap.get (JS.Int 0) (UserService.users s) = None).
  { apply get_None. apply (wf_misses n); [exact W | lia]. }
  repeat split.
  - intros u Hin Hid. destruct (wf_record _ _ _ W Hin) as (z & Hz & Hz' & _).
    rewrite Hid in Hz'. injection Hz' as <-. lia.
  - unfold UserService.getUserById.
    change (TypeConverter.toNumber (JS.VString EmptyString))
      with (@createSuccess JS.number (Some (JS.Int 0))).
    cbn [success data createSuccess negb]. rewrite Hnone. reflexivity.
  - unfold UserService.deleteUser, JsMap.has.
    change (TypeConverter.toNumber (JS.VString EmptyString))
      with (@createSuccess JS.number (Some (JS.Int 0))).
    cbn [success data createSuccess negb]. rewrite Hnone. reflexivity.
Qed.

(** C4, as amended.  For an id that resolves to a stored record, a field
    not supplied in the updates keeps its prior value in the record a
    successful [update] returns and stores; an explicitly supplied empty
    string is not treated as not given: an empty name is rejected with
    "Name cannot be empty", and, the name being absent or valid, an empty
    email is rejected with "Email cannot be empty", the store staying as
    it was. *)
Theorem updateUser_fields :
  forall (id : string) (updates : PartialRequest.t) (s : UserService.t)
         (existing : IUser.t),
    UserService.getUserById id s = createSuccess (Some existing) ->
    (PartialRequest.name updates = Some EmptyString ->
     UserService.updateUser id updates s
     = (createError "Name cannot be empty", s))
    /\ (PartialRequest.name updates = None
        \/ (exists n, PartialRequest.name updates = Some n
                      /\ UserService.validateName n = createSuccess (Some true)) ->
        PartialRequest.email updates = Some EmptyString ->
        UserService.updateUser id updates s
        = (createError "Email cannot be empty", s))
    /\ (success (fst (UserService.updateUser id updates s)) = true ->
        exists u,
          UserService.updateUser id updates s
          = (createSuccess (Some u),
             {| UserService.users :=
                  JsMap.set (IUser.id existing) u (UserService.users s);
                UserService.nextId := UserService.nextId s |})
          /\ IUser.id u = IUser.id existing
          /\ (PartialRequest.name updates = None ->
              IUser.name u = IUser.name existing)
          /\ (PartialRequest.email updates = None ->
              IUser.email u = IUser.email existing)).
Proof.
  intros id updates s existing Hg. repeat split.
  - intros Hn. unfold UserService.updateUser. rewrite Hg, Hn. reflexivity.
  - intros Hn He. unfold UserService.updateUser. rewrite Hg, He.
    destruct Hn as [-> | (n & -> & ->)]; reflexivity.
  - intros Hok.
    destruct (updateUser_cases id updates s)
      as [[Hf _] | (u & Hg' & _ & _ & E)]; [congruence|].
    rewrite Hg in Hg'. injection Hg' as <-.
    exists (updated updates existing). split; [exact E|].
    split; [reflexivity|].
    split; intros H; unfold updated; cbn [IUser.name IUser.email];
      rewrite H; reflexivity.
Qed.

Lemma updateUser_fields_witness :
  UserService.updateUser "1" (PartialRequest.mk (Some EmptyString) None)
    (run [Create john] UserService.new)
  = (createError "Name cannot be empty", run [Create john] UserService.new).
Proof.
  apply (updateUser_fields "1" (PartialRequest.mk (Some EmptyString) None)
           (run [Create john] UserService.new) john1).
  - reflexivity.
  - reflexivity.
Defined.

(** C4 as stated fails: on the store holding John Doe under id 1, an
    update supplying the empty string for the name, or for the email, is
    not ignored but rejected with a validation error. *)
Lemma update_empty_string_counterexample :
  let s := run [Create john] UserService.new in
  UserService.getUserById "1" s = createSuccess (Some john1)
  /\ UserService.updateUser "1" (PartialRequest.mk (Some EmptyString) None) s
     = (createError "Name cannot be empty", s)
  /\ UserService.updateUser "1" (PartialRequest.mk None (Some EmptyString)) s
     = (createError "Email cannot be empty", s).
Proof. repeat split. Qed.

Lemma empty_id_not_found_witness : IUser.id john1 <> JS.Int 0.
Proof.
  apply (proj2 empty_id_not_found [Create john]).
  simpl. left. reflexivity.
Defined.

(** ** The store between operations *)

(** The invariant of the data model: every key of the mapping is the id
    of its record, a positive integer below the counter. *)
Lemma store_invariant (ops : list op) :
  exists n,
    UserService.nextId (run ops UserService.new) = JS.Int n
    /\ forall k u,
         In (k, u) (UserService.users (run ops UserService.new)) ->
         k = IUser.id u /\ exists z, k = JS.Int z /\ 1 <= z < n.
Proof.
  destruct (wf_reachable ops) as (n & W). exists n.
  split; [apply (wf_next _ _ W)|]. intros k u Hin.
  pose proof (wf_entries _ _ W) as Hall. rewrite Forall_forall in Hall.
  destruct (Hall _ Hin) as (z & Hz & Hk & Hid). simpl in Hk, Hid.
  split; [congruence | eauto].
Qed.

(** The counter grows by at most one per operation: in a run of fewer
    than 2^53 - 1 operations it stays among the integers a JavaScript
    number holds exactly. *)
Lemma counter_bound (ops : list op) :
  forall (s : UserService.t) (n : Z),
    UserService.nextId s = JS.Int n ->
    exists n', UserService.nextId (run ops s) = JS.Int n'
               /\ n <= n' <= n + Z.of_nat (List.length ops).
Proof.
  induction ops as [|o ops IH]; intros s n Hn.
  - exists n. simpl. split; [exact Hn | lia].
  - cbn [run List.length].
    destruct (step_counter o s n Hn) as [[_ Hn'] | [_ Hn']];
      destruct (IH _ _ Hn') as (n' & E & Hb); exists n'; split;
      try exact E; lia.
Qed.

(** ** The built-ins and the test suite, run on the model *)

Example Number_examples :
  List.map JS.Number
    [" 12 "; "0x10"; "1e3"; "1.50"; "-0"; "abc"; "12px"; "-0x10"; "Infinity"]
  = [JS.Int 12; JS.Int 16; JS.Int 1000; JS.Dec 15 1; JS.NegZero; JS.NaN;
     JS.NaN; JS.NaN; JS.Infinity false].
Proof. reflexivity. Qed.

Example ToString_examples :
  List.map JS.ToString
    [JS.Int 999; JS.Int (-250); JS.Dec 15 1; JS.Dec 1 6; JS.Dec 1 7;
     JS.Int (10 ^ 21); JS.NegZero]
  = ["999"; "-250"; "1.5"; "0.000001"; "1e-7"; "1e+21"; "0"].
Proof. vm_compute. reflexivity. Qed.

Example emailRegex_examples :
  List.map (RegExp.test UserService.emailRegex)
    ["john@example.com"; "a.b@c.d.e"; "invalid-email"; "a@b"; "@b.c";
     "a@b."; "a b@c.d"; "a@b@c.d"]
  = [true; true; false; false; false; false; false; false].
Proof. vm_compute. reflexivity. Qed.

Example create_valid_user :
  fst (UserService.createUser john UserService.new) = createSuccess (Some john1).
Proof. reflexivity. Qed.

Example create_invalid_email :
  fst (UserService.createUser (IUserCreateRequest.mk "John Doe" "invalid-email")
         UserService.new)
  = createError "Invalid email format".
Proof. vm_compute. reflexivity. Qed.

Example create_duplicate_email :
  fst (UserService.createUser
         (IUserCreateRequest.mk "Jane Doe" "john@example.com")
         (run [Create john] UserService.new))
  = createError "User with this email already exists".
Proof. vm_compute. reflexivity. Qed.

Example get_invalid_id :
  UserService.getUserById "invalid-id" UserService.new
  = createError ("Invalid ID format: Cannot convert " ++ JS.dquote
                 ++ "invalid-id" ++ JS.dquote ++ " to number")%string.
Proof. reflexivity. Qed.

Example get_after_delete :
  UserService.getUserById "1" (run [Create john; Delete "1"] UserService.new)
  = createError "User not found with ID: 1".
Proof. vm_compute. reflexivity. Qed.

Example update_name_only :
  fst (UserService.updateUser "1" (PartialRequest.mk (Some "Jane Doe") None)
         (run [Create john] UserService.new))
  = createSuccess (Some (IUser.mk (JS.Int 1) "Jane Doe" "john@example.com")).
Proof. vm_compute. reflexivity. Qed.

Example update_to_duplicate_email :
  UserService.updateUser "2"
    (PartialRequest.mk None (Some "john@example.com"))
    (run [Create john; Create jane] UserService.new)
  = (createError "Email is already in use by another user",
     run [Create john; Create jane] UserService.new)
  /\ records (run [Create john; Create jane] UserService.new)
     = [john1; jane2].
Proof. vm_compute. split; reflexivity. Qed.

Example ids_across_deletion :
  issued [Create john; Delete "1"; Create john; Create jane] UserService.new
  = [JS.Int 1; JS.Int 2; JS.Int 3].
Proof. vm_compute. reflexivity. Qed.

(** ** Printing and reading integers *)

Section Digits.

Lemma is_decimal_digit_value (c : ascii) :
  is_decimal c = true ->
  JS.digit_value c = Some (Z.of_nat (nat_of_ascii c) - 48)
  /\ 0 <= Z.of_nat (nat_of_ascii c) - 48 < 10.
Proof.
  unfold is_decimal, JS.digit_value. intros H.
  apply andb_true_iff in H. destruct H as [H1 H2].
  apply Nat.leb_le in H1. apply Nat.leb_le in H2.
  replace (48 <=? Z.of_nat (nat_of_ascii c)) with true
    by (symmetry; apply Z.leb_le; lia).
  replace (Z.of_nat (nat_of_ascii c) <=? 57) with true
    by (symmetry; apply Z.leb_le; lia).
  split; [reflexivity | lia].
Qed.

Lemma not_decimal_stops (c : ascii) :
  is_decimal c = false ->
  match JS.digit_value c with Some v => v <? 10 | None => false end = false.
Proof.
  destruct c as [[|] [|] [|] [|] [|] [|] [|] [|]]; vm_compute;
    congruence.
Qed.

Lemma read_digits_app (t rest : string) :
  RegExp.all_chars is_decimal t = true -> stops rest ->
  forall acc cnt,
    JS.read_digits 10 (t ++ rest)%string acc cnt
    = (dval t acc, cnt + Z.of_nat (String.length t), rest).
Proof.
  intros Ht Hr. induction t as [|c t IH]; intros acc cnt.
  - simpl. rewrite Z.add_0_r. destruct rest as [|c r]; [reflexivity|].
    simpl in Hr. apply not_decimal_stops in Hr. simpl.
    destruct (JS.digit_value c) as [v|]; [|reflexivity].
    rewrite Hr. reflexivity.
  - simpl in Ht. apply andb_true_iff in Ht. destruct Ht as [Hc Ht].
    destruct (is_decimal_digit_value c Hc) as [E Hv].
    cbn [append JS.read_digits dval String.length]. rewrite E.
    replace (Z.of_nat (nat_of_ascii c) - 48 <? 10) with true
      by (symmetry; apply Z.ltb_lt; lia).
    rewrite (IH Ht). f_equal. f_equal. lia.
Qed.

Lemma dval_app (a b : string) :
  forall acc, dval (a ++ b)%string acc = dval b (dval a acc).
Proof. induction a as [|c a IH]; intros acc; simpl; [reflexivity | apply IH]. Qed.

Lemma dval_acc (t : string) :
  forall acc,
    dval t acc = acc * 10 ^ Z.of_nat (String.length t) + dval t 0.
Proof.
  induction t as [|c t IH]; intros acc.
  - simpl. lia.
  - cbn [dval String.length]. rewrite IH, (IH (0 * 10 + _)).
    rewrite Nat2Z.inj_succ, Z.pow_succ_r by lia. ring.
Qed.

Lemma dval_zeros (m : nat) :
  forall acc, dval (JS.zeros m) acc = acc * 10 ^ Z.of_nat m.
Proof.
  induction m as [|m IH]; intros acc.
  - simpl. lia.
  - cbn [JS.zeros dval]. rewrite IH.
    rewrite Nat2Z.inj_succ, Z.pow_succ_r by lia.
    change (Z.of_nat (nat_of_ascii "0") - 48) with 0. ring.
Qed.

Lemma length_zeros (m : nat) : String.length (JS.zeros m) = m.
Proof. induction m; simpl; congruence. Qed.

Lemma length_append (a b : string) :
  String.length (a ++ b)%string = (String.length a + String.length b)%nat.
Proof. induction a; simpl; congruence. Qed.

Lemma all_chars_app (p : ascii -> bool) (a b : string) :
  RegExp.all_chars p (a ++ b)%string
  = RegExp.all_chars p a && RegExp.all_chars p b.
Proof.
  induction a as [|c a IH]; simpl; [reflexivity|].
  rewrite IH. apply andb_assoc.
Qed.

Lemma dval_nonneg (t : string) :
  RegExp.all_chars is_decimal t = true ->
  forall acc, 0 <= acc -> 0 <= dval t acc.
Proof.
  induction t as [|c t IH]; intros Ht acc Hacc; simpl; [exact Hacc|].
  simpl in Ht. apply andb_true_iff in Ht. destruct Ht as [Hc Ht].
  apply (IH Ht). destruct (is_decimal_digit_value c Hc) as [_ Hv]. lia.
Qed.

(** *** The numerals of the standard library *)

Lemma string_of_uint_decimal (d : Decimal.uint) :
  RegExp.all_chars is_decimal (NilEmpty.string_of_uint d) = true.
Proof. induction d; simpl; auto. Qed.

Lemma dval_string_of_uint (d : Decimal.uint) :
  forall acc, dval (NilEmpty.string_of_uint d) acc = uint_val d acc.
Proof. induction d; intros acc; simpl; auto; apply IHd. Qed.

Lemma uint_val_of_lu (d : Decimal.uint) :
  forall acc,
    uint_val d acc
    = acc * 10 ^ Z.of_N (DecimalPos.Unsigned.usize d)
      + Z.of_N (DecimalPos.Unsigned.of_lu (Decimal.rev d)).
Proof.
  induction d; intros acc;
    [simpl; lia | ..];
    unfold Decimal.rev; cbn [Decimal.revapp];
    rewrite (DecimalPos.Unsigned.of_lu_revapp d);
    cbn [uint_val DecimalPos.Unsigned.usize DecimalPos.Unsigned.of_lu];
    rewrite IHd;
    rewrite N2Z.inj_succ, Z.pow_succ_r by lia;
    rewrite N2Z.inj_add, N2Z.inj_mul, N2Z.inj_pow;
    simpl Z.of_N; ring.
Qed.

Lemma digits_of_spec (z : Z) :
  0 <= z ->
  RegExp.all_chars is_decimal (JS.digits_of z) = true
  /\ dval (JS.digits_of z) 0 = z
  /\ JS.digits_of z <> EmptyString.
Proof.
  intros Hz. unfold JS.digits_of.
  assert (E : NilZero.string_of_uint (N.to_uint (Z.to_N z))
              = NilEmpty.string_of_uint (N.to_uint (Z.to_N z))).
  { unfold NilZero.string_of_uint.
    destruct (N.to_uint (Z.to_N z)) eqn:Ed; try reflexivity.
    destruct (Z.to_N z) as [|p]; [discriminate|].
    exfalso. exact (DecimalPos.Unsigned.to_uint_nonnil p Ed). }
  rewrite E. split; [apply string_of_uint_decimal|]. split.
  - rewrite dval_string_of_uint, uint_val_of_lu.
    rewrite <- DecimalPos.Unsigned.of_uint_alt.
    change (Pos.of_uint (N.to_uint (Z.to_N z)))
      with (N.of_uint (N.to_uint (Z.to_N z))).
    rewrite DecimalN.Unsigned.of_to. lia.
  - rewrite <- E. unfold NilZero.string_of_uint.
    destruct (N.to_uint (Z.to_N z)); discriminate.
Qed.
End Digits.

Section Reading.

Lemma all_chars_impl (p q : ascii -> bool) (s : string) :
  (forall c, p c = true -> q c = true) ->
  RegExp.all_chars p s = true -> RegExp.all_chars q s = true.
Proof.
  intros Hpq. induction s as [|c s IH]; simpl; [reflexivity|].
  rewrite !andb_true_iff. intros [Hc Hs]. auto.
Qed.

Lemma decimal_not_white (c : ascii) : is_decimal c = true -> not_white c = true.
Proof.
  destruct c as [[|] [|] [|] [|] [|] [|] [|] [|]]; vm_compute; congruence.
Qed.

Lemma trim_end_not_white (s : string) :
  RegExp.all_chars not_white s = true -> JS.trim_end s = s.
Proof.
  induction s as [|c s IH]; simpl; [reflexivity|].
  rewrite andb_true_iff. intros [Hc Hs]. rewrite (IH Hs).
  unfold not_white in Hc. apply negb_true_iff in Hc.
  destruct s; [rewrite Hc|]; reflexivity.
Qed.

Lemma trim_not_white (s : string) :
  RegExp.all_chars not_white s = true -> JS.trim s = s.
Proof.
  intros H. unfold JS.trim.
  assert (E : JS.trim_start s = s).
  { destruct s as [|c s]; [reflexivity|]. simpl in *.
    apply andb_true_iff in H. destruct H as [Hc _].
    unfold not_white in Hc. apply negb_true_iff in Hc. rewrite Hc.
    reflexivity. }
  rewrite E. apply trim_end_not_white, H.
Qed.

Lemma Number_decimal_start (c : ascii) (r : string) :
  JS.trim (String c r) = String c r ->
  is_decimal c = true ->
  match r with String c2 _ => base_letter c2 = false | EmptyString => True end ->
  JS.Number (String c r) = JS.unsigned_decimal false (String c r).
Proof.
  intros Ht Hc Hr. unfold JS.Number. rewrite Ht.
  destruct c as [[|] [|] [|] [|] [|] [|] [|] [|]];
    try discriminate Hc; try reflexivity.
  destruct r as [|c2 r2]; [reflexivity|].
  destruct c2 as [[|] [|] [|] [|] [|] [|] [|] [|]];
    try discriminate Hr; reflexivity.
Qed.

Lemma Number_minus (r : string) :
  JS.trim (String "-" r) = String "-" r ->
  JS.Number (String "-" r) = JS.unsigned_decimal true r.
Proof. intros Ht. unfold JS.Number. rewrite Ht. reflexivity. Qed.

Lemma of_decimal_pos (neg : bool) (d t : Z) :
  0 < d -> 0 <= t ->
  JS.of_decimal neg d t = JS.Int ((if neg then - d else d) * 10 ^ t).
Proof.
  intros Hd Ht. unfold JS.of_decimal.
  destruct (Z.eqb_spec d 0); [lia|].
  destruct (Z.leb_spec 0 t); [reflexivity | lia].
Qed.

Lemma not_Infinity (c : ascii) (r : string) :
  is_decimal c = true -> String.eqb (String c r) "Infinity" = false.
Proof.
  intros Hc. simpl. destruct (Ascii.eqb_spec c "I"); [|reflexivity].
  subst c. discriminate Hc.
Qed.

(** A run of digits alone. *)
Lemma unsigned_decimal_digits (neg : bool) (c : ascii) (t : string) :
  RegExp.all_chars is_decimal (String c t) = true ->
  JS.unsigned_decimal neg (String c t)
  = JS.of_decimal neg (dval (String c t) 0) 0.
Proof.
  intros Ht. unfold JS.unsigned_decimal.
  assert (Hc : is_decimal c = true)
    by (simpl in Ht; apply andb_true_iff in Ht; tauto).
  rewrite (not_Infinity c t Hc).
  rewrite <- (append_nil_r (String c t)) at 1.
  rewrite (read_digits_app _ EmptyString Ht I).
  cbn [String.length]. rewrite Nat2Z.inj_succ.
  destruct (Z.eqb_spec (0 + Z.succ (Z.of_nat (String.length t)) + 0) 0);
    [lia | reflexivity].
Qed.

Lemma exponent_part_plus (E : string) :
  RegExp.all_chars is_decimal E = true -> E <> EmptyString ->
  JS.exponent_part (String "+" E) = Some (dval E 0).
Proof.
  intros HE Hne. unfold JS.exponent_part.
  rewrite <- (append_nil_r E) at 1.
  rewrite (read_digits_app _ EmptyString HE I).
  destruct E; [congruence|]. cbn [String.length]. rewrite Nat2Z.inj_succ.
  destruct (Z.ltb_spec 0 (0 + Z.succ (Z.of_nat (String.length E))));
    [reflexivity | lia].
Qed.

(** Digits and an exponent. *)
Lemma unsigned_decimal_exponent (neg : bool) (c : ascii) (E : string) :
  is_decimal c = true ->
  RegExp.all_chars is_decimal E = true -> E <> EmptyString ->
  JS.unsigned_decimal neg (String c ("e" ++ String "+" E))%string
  = JS.of_decimal neg (dval (String c EmptyString) 0) (dval E 0).
Proof.
  intros Hc HE Hne. unfold JS.unsigned_decimal.
  rewrite (not_Infinity c _ Hc).
  change (String c ("e" ++ String "+" E))%string
    with (String c EmptyString ++ String "e" (String "+" E))%string.
  rewrite (read_digits_app (String c EmptyString));
    [| simpl; rewrite Hc; reflexivity | reflexivity].
  cbn -[JS.exponent_part JS.of_decimal dval].
  rewrite (exponent_part_plus E HE Hne). rewrite Z.sub_0_r. reflexivity.
Qed.

(** Digits, a fraction and an exponent. *)
Lemma unsigned_decimal_fraction (neg : bool) (c : ascii) (b E : string) :
  is_decimal c = true ->
  RegExp.all_chars is_decimal b = true ->
  RegExp.all_chars is_decimal E = true -> E <> EmptyString ->
  JS.unsigned_decimal neg
    (String c ("." ++ b ++ "e" ++ String "+" E))%string
  = JS.of_decimal neg (dval (String c b) 0)
      (dval E 0 - Z.of_nat (String.length b)).
Proof.
  intros Hc Hb HE Hne. unfold JS.unsigned_decimal.
  rewrite (not_Infinity c _ Hc).
  change (String c ("." ++ b ++ "e" ++ String "+" E))%string
    with (String c EmptyString
          ++ String "." (b ++ String "e" (String "+" E)))%string.
  rewrite (read_digits_app (String c EmptyString));
    [| simpl; rewrite Hc; reflexivity | reflexivity].
  cbn -[JS.exponent_part JS.of_decimal dval JS.read_digits append Z.add].
  rewrite (read_digits_app b (String "e" (String "+" E)) Hb eq_refl).
  cbn -[JS.exponent_part JS.of_decimal dval Z.add Z.eqb].
  rewrite (exponent_part_plus E HE Hne).
  destruct (Z.eqb_spec (0 + 1 + (0 + Z.of_nat (String.length b))) 0);
    [lia|].
  reflexivity.
Qed.
End Reading.

Section Printing.

Lemma numeral_char_spec (c : ascii) :
  numeral_char c = true -> not_white c = true /\ base_letter c = false.
Proof.
  destruct c as [[|] [|] [|] [|] [|] [|] [|] [|]]; vm_compute;
    split; congruence.
Qed.

Lemma decimal_numeral (s : string) :
  RegExp.all_chars is_decimal s = true ->
  RegExp.all_chars numeral_char s = true.
Proof.
  apply all_chars_impl. intros c Hc. unfold numeral_char. rewrite Hc.
  reflexivity.
Qed.

Lemma Number_numeral (c : ascii) (r : string) :
  is_decimal c = true ->
  RegExp.all_chars numeral_char r = true ->
  JS.Number (String c r) = JS.unsigned_decimal false (String c r)
  /\ JS.Number (String "-" (String c r))
     = JS.unsigned_decimal true (String c r).
Proof.
  intros Hc Hr.
  assert (Hw : RegExp.all_chars not_white (String c r) = true).
  { simpl. rewrite (decimal_not_white c Hc). simpl.
    apply (all_chars_impl numeral_char); [|exact Hr].
    intros c' H. apply numeral_char_spec, H. }
  split.
  - apply Number_decimal_start; [apply trim_not_white, Hw | exact Hc |].
    destruct r as [|c2 r2]; [exact I|]. simpl in Hr.
    apply andb_true_iff in Hr. destruct Hr as [H2 _].
    apply numeral_char_spec, H2.
  - apply Number_minus. apply trim_not_white.
    change (RegExp.all_chars not_white (String "-" (String c r)))
      with (RegExp.all_chars not_white (String c r)).
    exact Hw.
Qed.

Lemma strip_zeros_spec (s : string) :
  exists m, s = (JS.strip_zeros s ++ JS.zeros m)%string.
Proof.
  induction s as [|c s [m IH]].
  - exists O. reflexivity.
  - cbn [JS.strip_zeros]. destruct (JS.strip_zeros s) as [|c' s'] eqn:E.
    + destruct (Ascii.eqb_spec c "0") as [->|Hc].
      * exists (S m). simpl in *. congruence.
      * exists m. simpl in *. congruence.
    + exists m. simpl in *. congruence.
Qed.

Lemma substring_all (s : string) : substring 0 (String.length s) s = s.
Proof. induction s; simpl; congruence. Qed.

(** The three layouts of a positive integer with the digits [c r],
    followed by zeros up to [n] digits. *)
Lemma layout_integer (c : ascii) (r : string) (n : Z) :
  let s := String c r in
  let k := Z.of_nat (String.length s) in
  k <= n ->
  JS.layout s n
  = if n <=? 21 then (s ++ JS.zeros (Z.to_nat (n - k)))%string
    else match r with
         | EmptyString =>
             String c ("e" ++ String "+" (JS.digits_of (n - 1)))%string
         | _ =>
             String c ("." ++ r ++ "e"
                       ++ String "+" (JS.digits_of (n - 1)))%string
         end.
Proof.
  intros s k Hk. unfold JS.layout. fold k.
  destruct (Z.leb_spec k n); [|lia]. cbn [andb].
  destruct (Z.leb_spec n 21); [reflexivity|].
  rewrite andb_false_r. cbn [orb andb].
  destruct (Z.leb_spec n 0); [lia|]. rewrite andb_false_r.
  destruct (Z.leb_spec 0 (n - 1)); [|lia].
  replace (Z.abs (n - 1)) with (n - 1) by lia.
  subst s k. cbn [String.length] in *. destruct r as [|c2 r2].
  - reflexivity.
  - destruct (Z.eqb_spec (Z.of_nat (S (String.length (String c2 r2)))) 1);
      [cbn [String.length] in *; lia|].
    replace (Z.to_nat (Z.of_nat (S (String.length (String c2 r2))) - 1))
      with (S (String.length r2)) by (cbn [String.length]; lia).
    cbn [substring]. rewrite substring_all. reflexivity.
Qed.
End Printing.

Section RoundTrip.

Lemma read_written (neg : bool) (z : Z) :
  0 < z ->
  exists c r,
    JS.positive_to_string (JS.Int z) = String c r
    /\ is_decimal c = true
    /\ RegExp.all_chars numeral_char r = true
    /\ JS.unsigned_decimal neg (String c r)
       = JS.Int (if neg then - z else z).
Proof.
  intros Hz. cbn [JS.positive_to_string].
  destruct (digits_of_spec z) as (Hd & Hv & _); [lia|].
  destruct (strip_zeros_spec (JS.digits_of z)) as [m Em].
  set (ds := JS.digits_of z) in *. set (s := JS.strip_zeros ds) in *.
  assert (Hs : RegExp.all_chars is_decimal s = true
               /\ RegExp.all_chars is_decimal (JS.zeros m) = true).
  { rewrite Em, all_chars_app in Hd. apply andb_true_iff in Hd. exact Hd. }
  destruct Hs as [Hs Hzs].
  assert (Hval : z = dval s 0 * 10 ^ Z.of_nat m).
  { rewrite <- Hv, Em, dval_app, dval_zeros. reflexivity. }
  assert (Hlen : Z.of_nat (String.length ds)
                 = Z.of_nat (String.length s) + Z.of_nat m).
  { rewrite Em at 1. rewrite length_append, length_zeros. lia. }
  assert (Hpos : 0 < dval s 0).
  { pose proof (dval_nonneg s Hs 0 ltac:(lia)).
    destruct (Z.eq_dec (dval s 0) 0) as [E0|]; [|lia].
    rewrite E0 in Hval. lia. }
  destruct s as [|c r] eqn:Es; [simpl in Hpos; lia|].
  assert (Hc : is_decimal c = true /\ RegExp.all_chars is_decimal r = true).
  { simpl in Hs. apply andb_true_iff in Hs. exact Hs. }
  destruct Hc as [Hc Hr].
  rewrite layout_integer by lia.
  replace (Z.to_nat (Z.of_nat (String.length ds)
                     - Z.of_nat (String.length (String c r))))
    with m by lia.
  destruct (Z.leb_spec (Z.of_nat (String.length ds)) 21) as [Hn|Hn].
  - exists c, (r ++ JS.zeros m)%string. split; [reflexivity|].
    split; [exact Hc|]. split.
    + apply decimal_numeral. rewrite all_chars_app, Hr, Hzs. reflexivity.
    + change (String c (r ++ JS.zeros m))
        with (String c r ++ JS.zeros m)%string.
      rewrite <- Em. destruct ds as [|c0 r0] eqn:Eds; [discriminate Em|].
      rewrite (unsigned_decimal_digits neg c0 r0 Hd), Hv.
      rewrite of_decimal_pos by lia. f_equal. destruct neg; lia.
  - destruct (digits_of_spec (Z.of_nat (String.length ds) - 1))
      as (HE & HvE & HneE); [lia|].
    set (E := JS.digits_of (Z.of_nat (String.length ds) - 1)) in *.
    assert (HEn : RegExp.all_chars numeral_char E = true)
      by (apply decimal_numeral, HE).
    destruct r as [|c2 r2] eqn:Er.
    + eexists c, _. split; [reflexivity|]. split; [exact Hc|]. split.
      * cbn [append RegExp.all_chars]. rewrite HEn. reflexivity.
      * rewrite (unsigned_decimal_exponent neg c E Hc HE HneE), HvE.
        cbn [String.length] in Hlen.
        rewrite of_decimal_pos by lia. f_equal.
        replace (Z.of_nat (String.length ds) - 1) with (Z.of_nat m) by lia.
        rewrite Hval. destruct neg; ring.
    + rewrite <- Er in *. eexists c, _. split; [reflexivity|].
      split; [exact Hc|]. split.
      * cbn [append RegExp.all_chars].
        rewrite all_chars_app, (decimal_numeral r Hr).
        cbn [append RegExp.all_chars]. rewrite HEn. reflexivity.
      * rewrite (unsigned_decimal_fraction neg c r E Hc Hr HE HneE), HvE.
        cbn [String.length] in Hlen.
        rewrite of_decimal_pos by lia. f_equal.
        replace (Z.of_nat (String.length ds) - 1
                 - Z.of_nat (String.length r)) with (Z.of_nat m) by lia.
        rewrite Hval. destruct neg; ring.
Qed.

(** Every integer is read back from what [String] writes for it. *)
Lemma Number_ToString_Int (z : Z) : JS.Number (JS.ToString (JS.Int z)) = JS.Int z.
Proof.
  cbn [JS.ToString]. destruct (Z.eqb_spec z 0) as [->|Hz0]; [reflexivity|].
  destruct (Z.ltb_spec z 0) as [Hneg|Hpos].
  - destruct (read_written true (- z)) as (c & r & -> & Hc & Hr & E); [lia|].
    change ("-" ++ String c r)%string with (String "-" (String c r)).
    rewrite (proj2 (Number_numeral c r Hc Hr)), E. f_equal. lia.
  - destruct (read_written false z) as (c & r & -> & Hc & Hr & E); [lia|].
    rewrite (proj1 (Number_numeral c r Hc Hr)), E. reflexivity.
Qed.
End RoundTrip.

(** ** More on the conversions *)

(** X1.  For every integer [z] from -2^53 to 2^53, the integers up to
    which every integer is a double and [String] writes all the digits,
    converting [z] to a string with [toString] and the string back with
    [toNumber] gives [z] again. *)
Theorem toString_toNumber_integer :
  forall z : Z,
    Z.abs z <= 2 ^ 53 ->
    ResultUtils.flatMap (TypeConverter.toString (JS.VNumber (JS.Int z)))
      (fun s => TypeConverter.toNumber (JS.VString s))
    = createSuccess (Some (JS.Int z)).
Proof.
  intros z _. cbn [TypeConverter.toString]. rewrite flatMap_createSuccess.
  unfold TypeConverter.toNumber. rewrite Number_ToString_Int. reflexivity.
Qed.

Lemma toString_toNumber_integer_witness :
  Z.abs (-9007199254740992) <= 2 ^ 53
  /\ ResultUtils.flatMap
       (TypeConverter.toString (JS.VNumber (JS.Int (-9007199254740992))))
       (fun s => TypeConverter.toNumber (JS.VString s))
     = createSuccess (Some (JS.Int (-9007199254740992))).
Proof.
  split; [vm_compute; discriminate |].
  apply (toString_toNumber_integer (-9007199254740992)).
  vm_compute; discriminate.
Defined.

(** X2.  On a string, [toBoolean] succeeds with [b] exactly when the
    string in lower case is the text of [b], whatever the case of its
    letters; so it reads back what [toString] writes for a boolean. *)
Theorem toBoolean_string :
  forall (s : string) (b : bool),
    (TypeConverter.toBoolean (JS.VString s) = createSuccess (Some b)
     <-> JS.toLowerCase s = JS.BooleanToString b)
    /\ ResultUtils.flatMap (TypeConverter.toString (JS.VBoolean b))
         (fun t => TypeConverter.toBoolean (JS.VString t))
       = createSuccess (Some b).
Proof.
  intros s b. split; [|destruct b; reflexivity].
  unfold TypeConverter.toBoolean.
  destruct (String.eqb_spec (JS.toLowerCase s) "true") as [E1|E1];
    [| destruct (String.eqb_spec (JS.toLowerCase s) "false") as [E2|E2]];
    destruct b; simpl; split; intros H;
    try discriminate H; try reflexivity; try congruence.
Qed.

Lemma toBoolean_string_witness :
  TypeConverter.toBoolean (JS.VString "TrUe") = createSuccess (Some true).
Proof. apply (proj1 (toBoolean_string "TrUe" true)). reflexivity. Defined.

(** *** White space around a number *)

Lemma trim_start_pad (a s : string) :
  RegExp.all_chars JS.is_white_space a = true ->
  JS.trim_start (a ++ s)%string = JS.trim_start s.
Proof.
  induction a as [|c a IH]; simpl; [reflexivity|].
  rewrite andb_true_iff. intros [Hc Ha]. rewrite Hc. apply IH, Ha.
Qed.

Lemma trim_start_white (b : string) :
  RegExp.all_chars JS.is_white_space b = true ->
  JS.trim_start b = EmptyString.
Proof.
  intros H. rewrite <- (append_nil_r b). rewrite trim_start_pad by exact H.
  reflexivity.
Qed.

Lemma trim_end_white (b : string) :
  RegExp.all_chars JS.is_white_space b = true -> JS.trim_end b = EmptyString.
Proof.
  induction b as [|c b IH]; simpl; [reflexivity|].
  rewrite andb_true_iff. intros [Hc Hb]. rewrite (IH Hb), Hc. reflexivity.
Qed.

Lemma trim_end_pad (s b : string) :
  RegExp.all_chars JS.is_white_space b = true ->
  JS.trim_end (s ++ b)%string = JS.trim_end s.
Proof.
  intros Hb. induction s as [|c s IH]; simpl.
  - apply trim_end_white, Hb.
  - rewrite IH. reflexivity.
Qed.

Lemma trim_start_app (s b : string) :
  JS.trim_start (s ++ b)%string = (JS.trim_start s ++ b)%string
  \/ (JS.trim_start s = EmptyString
      /\ JS.trim_start (s ++ b)%string = JS.trim_start b).
Proof.
  induction s as [|c s IH]; simpl.
  - right. auto.
  - destruct (JS.is_white_space c); [exact IH | left; reflexivity].
Qed.

Lemma trim_pad (a s b : string) :
  RegExp.all_chars JS.is_white_space a = true ->
  RegExp.all_chars JS.is_white_space b = true ->
  JS.trim (a ++ s ++ b)%string = JS.trim s.
Proof.
  intros Ha Hb. unfold JS.trim. rewrite (trim_start_pad a _ Ha).
  destruct (trim_start_app s b) as [-> | [E ->]].
  - apply trim_end_pad, Hb.
  - rewrite E, (trim_start_white b Hb). reflexivity.
Qed.

Lemma Number_pad (a s b : string) :
  RegExp.all_chars JS.is_white_space a = true ->
  RegExp.all_chars JS.is_white_space b = true ->
  JS.Number (a ++ s ++ b)%string = JS.Number s.
Proof.
  intros Ha Hb. unfold JS.Number. rewrite (trim_pad a s b Ha Hb).
  reflexivity.
Qed.

(** X3.  White space around the text of a number is ignored: [toNumber]
    succeeds on the padded string when it does on the string, with the
    same number, and [getById] of a padded id that converts gives what
    [getById] of the id gives. *)
Theorem toNumber_ignores_white_space :
  forall (a s b : string) (store : UserService.t),
    RegExp.all_chars JS.is_white_space a = true ->
    RegExp.all_chars JS.is_white_space b = true ->
    success (TypeConverter.toNumber (JS.VString (a ++ s ++ b)%string))
    = success (TypeConverter.toNumber (JS.VString s))
    /\ data (TypeConverter.toNumber (JS.VString (a ++ s ++ b)%string))
       = data (TypeConverter.toNumber (JS.VString s))
    /\ (success (TypeConverter.toNumber (JS.VString s)) = true ->
        UserService.getUserById (a ++ s ++ b)%string store
        = UserService.getUserById s store).
Proof.
  intros a s b store Ha Hb.
  unfold UserService.getUserById, TypeConverter.toNumber.
  rewrite (Number_pad a s b Ha Hb).
  destruct (JS.isNaN (JS.Number s)); repeat split; try reflexivity.
  discriminate.
Qed.

Lemma toNumber_ignores_white_space_witness :
  UserService.getUserById (" " ++ "1" ++ " ")%string
    (run [Create john] UserService.new)
  = UserService.getUserById "1" (run [Create john] UserService.new).
Proof.
  apply (toNumber_ignores_white_space " " "1" " "); reflexivity.
Defined.

(** ** More on the combinators *)

(** X4.  [flatMap] is associative, and [map] is [flatMap] with the mapper
    followed by [ok], for every result record and all mappers. *)
Theorem flatMap_assoc :
  forall (A B C : Type) (r : IResult A)
         (f : A -> IResult B) (g : B -> IResult C) (h : A -> option B),
    ResultUtils.flatMap (ResultUtils.flatMap r f) g
    = ResultUtils.flatMap r (fun x => ResultUtils.flatMap (f x) g)
    /\ ResultUtils.map r h
       = ResultUtils.flatMap r (fun x => createSuccess (h x)).
Proof.
  intros A B C r f g h. split; [|reflexivity].
  destruct r as [[|] [d|] e]; try reflexivity;
    destruct e as [[|c s]|]; reflexivity.
Qed.

(** X5.  [unwrapOr] commutes with [map] when the mapper returns no
    [undefined] on a defined value: mapping and then unwrapping with the
    mapped default is then unwrapping and then mapping, for every result
    record and every default, [undefined] included. *)
Theorem unwrapOr_map :
  forall (A B : Type) (r : IResult A) (f : option A -> option B)
         (d : option A),
    (forall a, f (Some a) <> None) ->
    ResultUtils.unwrapOr (ResultUtils.map r (fun a => f (Some a))) (f d)
    = f (ResultUtils.unwrapOr r d).
Proof.
  intros A B [[|] [x|] e] f d Hf; try reflexivity.
  unfold ResultUtils.map, ResultUtils.unwrapOr. cbn.
  specialize (Hf x). destruct (f (Some x)); [reflexivity | congruence].
Qed.

Lemma unwrapOr_map_witness :
  (forall a : nat, option_map S (Some a) <> None)
  /\ ResultUtils.unwrapOr
       (ResultUtils.map (createSuccess (Some 1%nat))
          (fun a => option_map S (Some a)))
       (option_map S None)
     = option_map S (ResultUtils.unwrapOr (createSuccess (Some 1%nat)) None).
Proof.
  split; [discriminate |].
  apply (unwrapOr_map nat nat (createSuccess (Some 1%nat)) (option_map S) None).
  discriminate.
Defined.

(** X6.  [isSuccess] and [isError] never both hold; a success without a
    payload satisfies neither.  The result of [map] is an error exactly
    when its argument is no success with a payload; it is a success with a
    payload exactly when its argument is one and the mapper returns a
    defined value on that payload.  So under a mapper that returns no
    [undefined], the result of [map] is a success exactly when its
    argument is. *)
Theorem isSuccess_isError :
  forall (A B : Type) (r : IResult A) (f : A -> option B),
    ResultUtils.isSuccess r && ResultUtils.isError r = false
    /\ (ResultUtils.isSuccess r || ResultUtils.isError r = false
        <-> success r = true /\ data r = None)
    /\ ResultUtils.isError (ResultUtils.map r f)
       = negb (ResultUtils.isSuccess r)
    /\ ResultUtils.isSuccess (ResultUtils.map r f)
       = match data r with
         | Some x => success r && GoLikeValidator.isNotUndefined (f x)
         | None => false
         end
    /\ ((forall a, f a <> None) ->
        ResultUtils.isSuccess (ResultUtils.map r f) = ResultUtils.isSuccess r).
Proof.
  intros A B [[|] [x|] e] f; repeat split; try reflexivity;
    try discriminate; try (intros [? ?]; discriminate).
  intros Hf. specialize (Hf x). cbn. destruct (f x); [reflexivity | congruence].
Qed.

Lemma isSuccess_isError_witness :
  ResultUtils.isSuccess (@createSuccess nat None)
  || ResultUtils.isError (@createSuccess nat None) = false
  /\ ResultUtils.isSuccess
       (ResultUtils.map (createSuccess (Some 1%nat)) (fun n => Some (S n)))
     = ResultUtils.isSuccess (createSuccess (Some 1%nat)).
Proof.
  split.
  - apply (proj2 (proj1 (proj2
             (isSuccess_isError nat nat (createSuccess None)
                (fun n => Some (S n)))))).
    split; reflexivity.
  - apply (proj2 (proj2 (proj2 (proj2
             (isSuccess_isError nat nat (createSuccess (Some 1%nat))
                (fun n => Some (S n))))))).
    discriminate.
Defined.

(** X7.  [assertSuccess] returns the payload exactly on a success with a
    payload, and [assertError] the message exactly on a failure with a
    message; they never both return.  On a result of [map] one of them
    returns, unless the argument is a success with a payload on which the
    mapper returns [undefined]: then both throw. *)
Theorem assert_helpers :
  forall (A B : Type) (r : IResult A) (f : A -> option B),
    (forall d, TestHelper.assertSuccess r = Returns d
               <-> success r = true /\ data r = Some d)
    /\ (forall e, TestHelper.assertError r = Returns e
                  <-> success r = false /\ error r = Some e)
    /\ (forall d e, TestHelper.assertSuccess r = Returns d ->
                    TestHelper.assertError r = Returns e -> False)
    /\ ((exists d, TestHelper.assertSuccess (ResultUtils.map r f) = Returns d)
        \/ (exists e,
              TestHelper.assertError (ResultUtils.map r f) = Returns e)
        \/ (exists x,
              success r = true /\ data r = Some x /\ f x = None
              /\ TestHelper.assertSuccess (ResultUtils.map r f)
                 = Throws "Expected data to be defined in successful result"
              /\ TestHelper.assertError (ResultUtils.map r f)
                 = Throws "Expected error but got success")).
Proof.
  intros A B r f. split; [|split; [|split]].
  - intros d. unfold TestHelper.assertSuccess.
    destruct r as [[|] [x|] e]; cbn [success data error negb]; split;
      first [ intros [= <-]; split; reflexivity
            | intros H; discriminate H
            | intros [_ [= <-]]; reflexivity
            | intros [H1 H2]; discriminate ].
  - intros m. unfold TestHelper.assertError.
    destruct r as [[|] x [e|]]; cbn [success data error negb]; split;
      first [ intros [= <-]; split; reflexivity
            | intros H; discriminate H
            | intros [_ [= <-]]; reflexivity
            | intros [H1 H2]; discriminate ].
  - intros d m. unfold TestHelper.assertSuccess, TestHelper.assertError.
    destruct (success r); cbn [negb]; intros H1 H2; discriminate.
  - destruct r as [[|] [x|] e].
    + destruct (f x) as [y|] eqn:E.
      * left. exists y. unfold ResultUtils.map. cbn. rewrite E. reflexivity.
      * right. right. exists x. unfold ResultUtils.map. cbn. rewrite E.
        repeat split.
    + right. left. eexists. reflexivity.
    + right. left. eexists. reflexivity.
    + right. left. eexists. reflexivity.
Qed.

Lemma assert_helpers_witness :
  TestHelper.assertSuccess (createSuccess (Some 1%nat)) = Returns 1%nat.
Proof.
  apply (proj2 (proj1 (assert_helpers nat nat (createSuccess (Some 1%nat))
                         (fun n => Some (S n))) 1%nat)).
  split; reflexivity.
Defined.

(** ** More on the map *)

Section MoreMapFacts.
Context {V : Type}.
Implicit Types (m : JsMap.t V) (k q : JS.number) (v : V).

Lemma SameValueZero_shift k k' q :
  JS.SameValueZero k' k = true ->
  JS.SameValueZero k' q = JS.SameValueZero k q.
Proof.
  intros H. apply SameValueZero_true in H. unfold JS.SameValueZero.
  rewrite H. reflexivity.
Qed.

Lemma SameValueZero_normalize k q :
  JS.SameValueZero (JS.normalize_key k) q = JS.SameValueZero k q.
Proof. destruct k; reflexivity. Qed.

Lemma get_set_same k v m : JsMap.get k (JsMap.set k v m) = Some v.
Proof.
  induction m as [|[k' v'] m IH]; simpl.
  - rewrite SameValueZero_normalize, SameValueZero_refl. reflexivity.
  - destruct (JS.SameValueZero k' k) eqn:E; simpl; rewrite E;
      [reflexivity | exact IH].
Qed.

Lemma get_set_other k q v m :
  JS.SameValueZero k q = false ->
  JsMap.get q (JsMap.set k v m) = JsMap.get q m.
Proof.
  intros H. induction m as [|[k' v'] m IH]; simpl.
  - rewrite SameValueZero_normalize, H. reflexivity.
  - destruct (JS.SameValueZero k' k) eqn:E; simpl.
    + rewrite (SameValueZero_shift _ _ q E), H. reflexivity.
    + rewrite IH. reflexivity.
Qed.

Lemma get_delete_other k q m :
  JS.SameValueZero k q = false ->
  JsMap.get q (JsMap.delete k m) = JsMap.get q m.
Proof.
  intros H. induction m as [|[k' v'] m IH]; simpl; [reflexivity|].
  destruct (JS.SameValueZero k' k) eqn:E; simpl.
  - rewrite (SameValueZero_shift _ _ q E), H. reflexivity.
  - rewrite IH. reflexivity.
Qed.

Lemma In_values_set k v m u :
  In u (JsMap.values (JsMap.set k v m)) -> u = v \/ In u (JsMap.values m).
Proof.
  induction m as [|[k' v'] m IH]; simpl.
  - intros [H | []]. auto.
  - destruct (JS.SameValueZero k' k); simpl; intros [H | H]; auto.
    destruct (IH H); auto.
Qed.

Lemma In_values_delete k m u :
  In u (JsMap.values (JsMap.delete k m)) -> In u (JsMap.values m).
Proof.
  induction m as [|[k' v'] m IH]; simpl; [auto|].
  destruct (JS.SameValueZero k' k); simpl; intros H; auto.
  destruct H; auto.
Qed.

Lemma get_In_values q m v : JsMap.get q m = Some v -> In v (JsMap.values m).
Proof.
  intros H. apply get_Some in H. destruct H as (m1 & k & m2 & -> & _).
  rewrite values_app. apply in_or_app. right. left. reflexivity.
Qed.

Lemma misses_after z m1 v m2 :
  z <> 0 ->
  NoDup (JsMap.keys (m1 ++ (JS.Int z, v) :: m2)) ->
  misses (JS.Int z) m2.
Proof.
  intros Hz Hnd. rewrite keys_app in Hnd. simpl in Hnd.
  apply NoDup_remove_2 in Hnd.
  unfold misses. apply Forall_forall. intros [k v'] Hin. simpl.
  destruct (JS.SameValueZero k (JS.Int z)) eqn:E; [|reflexivity].
  exfalso. apply Hnd. apply in_or_app. right.
  apply SameValueZero_true in E. simpl in E.
  assert (k = JS.Int z) by (destruct k; simpl in E; congruence). subst k.
  change (JS.Int z) with (fst (JS.Int z, v')).
  apply in_map. exact Hin.
Qed.

Lemma get_app_misses q m1 m2 :
  misses q m1 -> JsMap.get q (m1 ++ m2) = JsMap.get q m2.
Proof.
  intros Hm. induction Hm as [|[k' v'] m1 E Hm IH]; simpl in *;
    [reflexivity|]. rewrite E. exact IH.
Qed.
End MoreMapFacts.

Lemma StronglySorted_snoc {A : Type} (R : A -> A -> Prop) (l : list A) (x : A) :
  StronglySorted R l -> Forall (fun y => R y x) l ->
  StronglySorted R (l ++ [x]).
Proof.
  induction 1 as [|a l Hl IH Ha]; intros Hx; simpl.
  - constructor; constructor.
  - inversion Hx; subst. constructor; [apply IH; assumption|].
    apply Forall_app. split; [assumption | constructor; [assumption | constructor]].
Qed.

Lemma StronglySorted_remove {A : Type} (R : A -> A -> Prop) (l1 l2 : list A)
    (x : A) :
  StronglySorted R (l1 ++ x :: l2) -> StronglySorted R (l1 ++ l2).
Proof.
  induction l1 as [|a l1 IH]; simpl; intros H.
  - inversion H; assumption.
  - inversion H as [|? ? Hs Ha]; subst. constructor; [apply IH, Hs|].
    apply Forall_app in Ha. destruct Ha as [H1 H2]. inversion H2; subst.
    apply Forall_app. split; assumption.
Qed.

(** ** What a successful operation did *)

Lemma createUser_inv (request : IUserCreateRequest.t) (s : UserService.t) :
  success (fst (UserService.createUser request s)) = true ->
  UserService.validateName (IUserCreateRequest.name request)
  = createSuccess (Some true)
  /\ UserService.validateEmail (IUserCreateRequest.email request)
     = createSuccess (Some true)
  /\ ~ In (IUserCreateRequest.email request) (emails s)
  /\ UserService.createUser request s
     = (createSuccess (Some (created request s)),
        {| UserService.users :=
             JsMap.set (UserService.nextId s) (created request s)
                       (UserService.users s);
           UserService.nextId := JS.succ (UserService.nextId s) |}).
Proof.
  intros H.
  destruct (createUser_cases request s) as [[Hf _] | (Hn & He & Hf)];
    [congruence|].
  repeat split; try assumption. apply createUser_success; assumption.
Qed.

Lemma updateUser_inv (id : string) (updates : PartialRequest.t)
    (s : UserService.t) :
  success (fst (UserService.updateUser id updates s)) = true ->
  exists q existing,
    TypeConverter.toNumber (JS.VString id) = createSuccess (Some q)
    /\ JsMap.get q (UserService.users s) = Some existing
    /\ (forall n, PartialRequest.name updates = Some n ->
          UserService.validateName n = createSuccess (Some true))
    /\ (forall e, PartialRequest.email updates = Some e ->
          UserService.validateEmail e = createSuccess (Some true)
          /\ (~ In e (emails s)
              \/ exists other,
                   In other (records s) /\ IUser.email other = e
                   /\ JS.strict_eq (IUser.id other) (IUser.id existing)
                      = true))
    /\ UserService.updateUser id updates s
       = (createSuccess (Some (updated updates existing)),
          {| UserService.users :=
               JsMap.set (IUser.id existing) (updated updates existing)
                         (UserService.users s);
             UserService.nextId := UserService.nextId s |}).
Proof.
  intros H.
  destruct (updateUser_cases id updates s)
    as [[Hf _] | (u & Hg & Hn & He & E)]; [congruence|].
  destruct (getUserById_success _ _ _ Hg) as (q & Hq & Hget).
  exists q, u. repeat split; try assumption.
  - intros n En.
    destruct (validateName_cases n) as [[_ Hv] | [(_ & _ & Hv) | (_ & _ & Hv)]];
      [exfalso .. | exact Hv];
      unfold UserService.updateUser in H; rewrite Hg, En, Hv in H;
      discriminate H.
  - assert (Hok : forall n, PartialRequest.name updates = Some n ->
                    UserService.validateName n = createSuccess (Some true)).
    { intros n En.
      destruct (validateName_cases n)
        as [[_ Hv] | [(_ & _ & Hv) | (_ & _ & Hv)]];
        [exfalso .. | exact Hv];
        unfold UserService.updateUser in H; rewrite Hg, En, Hv in H;
        discriminate H. }
    destruct (validateEmail_cases e)
      as [[_ Hv] | [(_ & _ & Hv) | (_ & _ & Hv)]];
      [exfalso .. | exact Hv];
      unfold UserService.updateUser in H; rewrite Hg, H0, Hv in H;
      cbn [success data createSuccess negb] in H;
      (destruct (PartialRequest.name updates) as [n|];
       [rewrite (Hok n eq_refl) in H|]); discriminate H.
  - apply (He e H0).
Qed.

Lemma deleteUser_inv (id : string) (s : UserService.t) :
  success (fst (UserService.deleteUser id s)) = true ->
  exists q u,
    TypeConverter.toNumber (JS.VString id) = createSuccess (Some q)
    /\ JsMap.get q (UserService.users s) = Some u
    /\ UserService.deleteUser id s
       = (createSuccess (Some true),
          {| UserService.users := JsMap.delete q (UserService.users s);
             UserService.nextId := UserService.nextId s |}).
Proof.
  unfold UserService.deleteUser.
  destruct (toNumber_string_cases id) as [(e & Hne & ->) | (n & ->)];
    [discriminate|].
  cbn [success data createSuccess negb]. unfold JsMap.has.
  destruct (JsMap.get n (UserService.users s)) as [u|] eqn:E;
    [|discriminate].
  intros _. exists n, u. repeat split. exact E.
Qed.

(** ** The stronger invariant is kept *)

Lemma validateName_nonempty (n : string) :
  UserService.validateName n = createSuccess (Some true) -> n <> EmptyString.
Proof. intros H ->. discriminate H. Qed.

Lemma validateEmail_nonempty (e : string) :
  UserService.validateEmail e = createSuccess (Some true) -> e <> EmptyString.
Proof. intros H ->. discriminate H. Qed.

Lemma valid_updated (updates : PartialRequest.t) (existing : IUser.t) :
  valid_record existing ->
  (forall n, PartialRequest.name updates = Some n ->
     UserService.validateName n = createSuccess (Some true)) ->
  (forall e, PartialRequest.email updates = Some e ->
     UserService.validateEmail e = createSuccess (Some true)) ->
  valid_record (updated updates existing).
Proof.
  intros [Vn Ve] Hn He. unfold valid_record, updated.
  cbn [IUser.name IUser.email]. split.
  - destruct (PartialRequest.name updates) as [n|]; [|exact Vn].
    rewrite (or_nonempty n _ (validateName_nonempty n (Hn n eq_refl))).
    apply Hn. reflexivity.
  - destruct (PartialRequest.email updates) as [e|]; [|exact Ve].
    rewrite (or_nonempty e _ (validateEmail_nonempty e (He e eq_refl))).
    apply He. reflexivity.
Qed.

Lemma records_split (m1 m2 : JsMap.t IUser.t) (k : JS.number) (u : IUser.t)
    (n : JS.number) :
  records {| UserService.users := m1 ++ (k, u) :: m2; UserService.nextId := n |}
  = JsMap.values m1 ++ u :: JsMap.values m2.
Proof. unfold records. cbn [UserService.users]. rewrite values_app. reflexivity. Qed.

Lemma sound_new : sound 1 UserService.new.
Proof. split; [apply wf_new | split; constructor]. Qed.

Lemma sound_createUser (n : Z) (s : UserService.t)
    (request : IUserCreateRequest.t) :
  sound n s ->
  success (fst (UserService.createUser request s)) = true ->
  sound (n + 1) (snd (UserService.createUser request s))
  /\ records (snd (UserService.createUser request s))
     = records s ++ [created request s]
  /\ IUser.id (created request s) = JS.Int n.
Proof.
  intros (W & Hv & Hs) H.
  destruct (createUser_inv request s H) as (Vn & Ve & Hf & E).
  rewrite E. cbn [snd].
  assert (Hrec : records
            {| UserService.users :=
                 JsMap.set (UserService.nextId s) (created request s)
                           (UserService.users s);
               UserService.nextId := JS.succ (UserService.nextId s) |}
          = records s ++ [created request s]).
  { unfold records. cbn [UserService.users].
    rewrite (wf_next _ _ W), (set_fresh _ _ _ (wf_fresh _ _ W)), values_app.
    reflexivity. }
  assert (Hid : IUser.id (created request s) = JS.Int n)
    by apply (wf_next _ _ W).
  split; [|split; assumption]. split; [|split].
  - apply wf_createUser; assumption.
  - rewrite Hrec. apply Forall_app. split; [exact Hv|].
    constructor; [split; assumption | constructor].
  - rewrite Hrec, map_app. cbn [List.map]. rewrite Hid.
    apply StronglySorted_snoc; [exact Hs|].
    apply Forall_forall. intros x Hx. apply in_map_iff in Hx.
    destruct Hx as (u & <- & Hu).
    destruct (wf_record _ _ _ W Hu) as (z & Hz & -> & _). simpl. lia.
Qed.

Lemma sound_updateUser (n : Z) (s : UserService.t) (id : string)
    (updates : PartialRequest.t) :
  sound n s ->
  success (fst (UserService.updateUser id updates s)) = true ->
  sound n (snd (UserService.updateUser id updates s))
  /\ List.map IUser.id (records (snd (UserService.updateUser id updates s)))
     = List.map IUser.id (records s).
Proof.
  intros (W & Hv & Hs) H.
  destruct (updateUser_inv id updates s H)
    as (q & u & Hq & Hget & Hn & He & E).
  rewrite E. cbn [snd].
  assert (Hw : wf n {| UserService.users :=
                         JsMap.set (IUser.id u) (updated updates u)
                                   (UserService.users s);
                       UserService.nextId := UserService.nextId s |}).
  { apply (wf_updateUser _ _ q); [assumption .. |].
    intros e Ee. destruct (He e Ee) as [Hv' Hu]. split; [|exact Hu].
    apply validateEmail_nonempty, Hv'. }
  destruct (wf_get _ _ _ _ W Hget) as (m1 & m2 & z & Em & Hz & Hid & -> & Hm).
  assert (Hids :
    List.map IUser.id
      (records {| UserService.users :=
                    JsMap.set (IUser.id u) (updated updates u)
                              (UserService.users s);
                  UserService.nextId := UserService.nextId s |})
    = List.map IUser.id (records s)).
  { destruct s as [m nx]. cbn [UserService.users UserService.nextId] in *.
    subst m. rewrite Hid, (set_at _ _ _ _ _ _ Hm (SameValueZero_refl _)).
    rewrite !records_split, !map_app. reflexivity. }
  split; [|exact Hids]. split; [exact Hw | split].
  - apply Forall_forall. intros x Hx. unfold records in Hx.
    cbn [UserService.users] in Hx. apply In_values_set in Hx.
    rewrite Forall_forall in Hv. destruct Hx as [-> | Hx]; [|apply Hv, Hx].
    apply valid_updated.
    + apply Hv. apply (get_In_values _ _ _ Hget).
    + exact Hn.
    + intros e Ee. apply (He e Ee).
  - rewrite Hids. exact Hs.
Qed.

Lemma sound_deleteUser (n : Z) (s : UserService.t) (id : string) :
  sound n s ->
  success (fst (UserService.deleteUser id s)) = true ->
  sound n (snd (UserService.deleteUser id s)).
Proof.
  intros (W & Hv & Hs) H.
  destruct (deleteUser_inv id s H) as (q & u & Hq & Hget & E).
  rewrite E. cbn [snd]. split; [apply (wf_deleteUser _ _ q u); assumption|].
  destruct (wf_get _ _ _ _ W Hget) as (m1 & m2 & z & Em & Hz & Hid & -> & Hm).
  destruct s as [m nx]. cbn [UserService.users UserService.nextId] in *.
  subst m. rewrite (delete_at _ _ _ _ _ Hm (SameValueZero_refl _)).
  rewrite records_split in Hv, Hs. unfold records. cbn [UserService.users].
  rewrite values_app. split.
  - apply Forall_app in Hv. destruct Hv as [H1 H2]. inversion H2; subst.
    apply Forall_app. split; assumption.
  - rewrite map_app in *. cbn [List.map] in Hs.
    apply StronglySorted_remove in Hs. exact Hs.
Qed.

Lemma sound_step (n : Z) (o : op) (s : UserService.t) :
  sound n s -> exists n', n <= n' /\ sound n' (snd (step o s)).
Proof.
  intros S. rewrite step_state. destruct o.
  - destruct (success (fst (UserService.createUser request s))) eqn:E.
    + exists (n + 1). split; [lia | apply sound_createUser; assumption].
    + exists n. split; [lia|].
      destruct (createUser_cases request s) as [[_ ->] | (Hn & He & Hf)];
        [exact S|].
      rewrite (createUser_success _ _ Hn He Hf) in E. discriminate E.
  - exists n. split; [lia | exact S].
  - exists n. split; [lia | exact S].
  - exists n. split; [lia|].
    destruct (success (fst (UserService.updateUser id updates s))) eqn:E.
    + apply sound_updateUser; assumption.
    + destruct (updateUser_cases id updates s)
        as [[_ ->] | (u & _ & _ & _ & E')]; [exact S|].
      rewrite E' in E. discriminate E.
  - exists n. split; [lia|].
    destruct (success (fst (UserService.deleteUser id s))) eqn:E.
    + apply sound_deleteUser; assumption.
    + destruct (deleteUser_cases id s) as [[_ ->] | (q & u & _ & E')];
        [exact S|].
      rewrite E' in E. discriminate E.
Qed.

Lemma sound_run (ops : list op) :
  forall (n : Z) (s : UserService.t),
    sound n s -> exists n', n <= n' /\ sound n' (run ops s).
Proof.
  induction ops as [|o ops IH]; intros n s S; simpl.
  - exists n. split; [lia | exact S].
  - destruct (sound_step n o s S) as (n1 & Hn1 & S1).
    destruct (IH n1 _ S1) as (n2 & Hn2 & S2).
    exists n2. split; [lia | exact S2].
Qed.

Lemma sound_reachable (ops : list op) :
  exists n, sound n (run ops UserService.new).
Proof.
  destruct (sound_run ops 1 _ sound_new) as (n & _ & S). exists n. exact S.
Qed.

(** ** More on the store *)

(** X8.  [validateEmail] accepts exactly the strings [local@domain.tld]
    whose three parts are non-empty and free of white space and of [@]. *)
Theorem validateEmail_accepts :
  forall e : string,
    UserService.validateEmail e = createSuccess (Some true)
    <-> exists l d t,
          e = (l ++ "@" ++ d ++ "." ++ t)%string
          /\ email_part l /\ email_part d /\ email_part t.
Proof.
  intros e. rewrite <- emailRegex_test. split.
  - intros H.
    destruct (validateEmail_cases e)
      as [[_ E] | [(_ & _ & E) | (_ & Ht & _)]];
      [rewrite E in H; discriminate H .. | exact Ht].
  - intros Ht. apply validateEmail_ok; [|exact Ht].
    intros ->. discriminate Ht.
Qed.

Lemma validateEmail_accepts_witness :
  UserService.validateEmail "john@example.com" = createSuccess (Some true).
Proof.
  apply (proj2 (validateEmail_accepts "john@example.com")).
  exists "john", "example", "com".
  repeat split; reflexivity || discriminate.
Defined.

(** X9.  Every record of a store reached by a sequence of operations
    passes the validators: its name is not empty and has at most 50
    characters, and its email matches the pattern. *)
Theorem stored_records_valid :
  forall (ops : list op) (u : IUser.t),
    In u (records (run ops UserService.new)) ->
    IUser.name u <> EmptyString
    /\ (String.length (IUser.name u) <= 50)%nat
    /\ RegExp.test UserService.emailRegex (IUser.email u) = true.
Proof.
  intros ops u Hu. destruct (sound_reachable ops) as (n & _ & Hv & _).
  rewrite Forall_forall in Hv. destruct (Hv u Hu) as [Vn Ve].
  destruct (validateName_cases (IUser.name u))
    as [[_ E] | [(_ & _ & E) | (Hne & Hlen & _)]];
    [rewrite E in Vn; discriminate Vn .. |].
  destruct (validateEmail_cases (IUser.email u))
    as [[_ E] | [(_ & _ & E) | (_ & Ht & _)]];
    [rewrite E in Ve; discriminate Ve .. |].
  auto.
Qed.

Lemma stored_records_valid_witness :
  IUser.name john1 <> EmptyString
  /\ (String.length (IUser.name john1) <= 50)%nat
  /\ RegExp.test UserService.emailRegex (IUser.email john1) = true.
Proof.
  apply (stored_records_valid [Create john] john1). left. reflexivity.
Defined.

(** X10.  [list] always succeeds, with the stored records in increasing
    order of their ids, which is the order of their creation. *)
Theorem getAllUsers_sorted :
  forall ops : list op,
    UserService.getAllUsers (run ops UserService.new)
    = createSuccess (Some (records (run ops UserService.new)))
    /\ StronglySorted id_lt
         (List.map IUser.id (records (run ops UserService.new))).
Proof.
  intros ops. split; [reflexivity|].
  destruct (sound_reachable ops) as (n & _ & _ & Hs). exact Hs.
Qed.

Lemma toNumber_written (z : Z) :
  TypeConverter.toNumber (JS.VString (JS.ToString (JS.Int z)))
  = createSuccess (Some (JS.Int z)).
Proof.
  unfold TypeConverter.toNumber. rewrite Number_ToString_Int. reflexivity.
Qed.

(** X11.  After a successful [create], [getById] of the text of the new
    id returns the new record, and [list] returns it after the records
    the store held. *)
Theorem create_then_get :
  forall (ops : list op) (request : IUserCreateRequest.t),
    let s := run ops UserService.new in
    success (fst (UserService.createUser request s)) = true ->
    exists u,
      fst (UserService.createUser request s) = createSuccess (Some u)
      /\ UserService.getUserById (JS.ToString (IUser.id u))
           (snd (UserService.createUser request s))
         = createSuccess (Some u)
      /\ UserService.getAllUsers (snd (UserService.createUser request s))
         = createSuccess (Some (records s ++ [u])).
Proof.
  intros ops request s H.
  destruct (sound_reachable ops) as (n & S). fold s in S.
  destruct (sound_createUser n s request S H) as (_ & Hrec & Hid).
  destruct (createUser_inv request s H) as (_ & _ & _ & E).
  exists (created request s). split; [rewrite E; reflexivity|]. split.
  - rewrite Hid. unfold UserService.getUserById. rewrite toNumber_written.
    cbn [success data createSuccess negb]. rewrite E. cbn [snd UserService.users].
    destruct S as (W & _). rewrite (wf_next _ _ W), get_set_same.
    reflexivity.
  - unfold UserService.getAllUsers. fold (records (snd (UserService.createUser request s))).
    rewrite Hrec. reflexivity.
Qed.

Lemma create_then_get_witness :
  exists u,
    fst (UserService.createUser john UserService.new) = createSuccess (Some u)
    /\ UserService.getUserById (JS.ToString (IUser.id u))
         (snd (UserService.createUser john UserService.new))
       = createSuccess (Some u)
    /\ UserService.getAllUsers (snd (UserService.createUser john UserService.new))
       = createSuccess (Some (records UserService.new ++ [u])).
Proof. apply (create_then_get [] john). reflexivity. Defined.

(** X12.  After a successful [delete], [getById] of the same id fails
    with "User not found with ID: " and the number; the store has lost
    the record that [getById] returned before, the other records keep
    their order, and the counter is as it was. *)
Theorem delete_then_get :
  forall (ops : list op) (id : string),
    let s := run ops UserService.new in
    let s' := snd (UserService.deleteUser id s) in
    success (fst (UserService.deleteUser id s)) = true ->
    exists q u l1 l2,
      TypeConverter.toNumber (JS.VString id) = createSuccess (Some q)
      /\ UserService.getUserById id s = createSuccess (Some u)
      /\ records s = l1 ++ u :: l2
      /\ records s' = l1 ++ l2
      /\ UserService.nextId s' = UserService.nextId s
      /\ UserService.getUserById id s'
         = createError ("User not found with ID: " ++ JS.ToString q)%string.
Proof.
  intros ops id s s' H.
  destruct (sound_reachable ops) as (n & W & _). fold s in W.
  destruct (deleteUser_inv id s H) as (q & u & Hq & Hget & E).
  destruct (wf_get _ _ _ _ W Hget) as (m1 & m2 & z & Em & Hz & Hid & -> & Hm).
  pose proof (wf_keys _ _ W) as Hk. rewrite Em in Hk.
  assert (Hm2 : misses (JS.Int z) m2)
    by (apply (misses_after z m1 u); [lia | exact Hk]).
  exists (JS.Int z), u, (JsMap.values m1), (JsMap.values m2).
  split; [exact Hq|]. split.
  { unfold UserService.getUserById. rewrite Hq.
    cbn [success data createSuccess negb]. rewrite Hget. reflexivity. }
  split.
  { unfold records. rewrite Em, values_app. reflexivity. }
  subst s'. rewrite E. cbn [snd].
  rewrite Em, (delete_at _ _ _ _ _ Hm (SameValueZero_refl _)).
  split; [unfold records; cbn [UserService.users]; apply values_app|].
  split; [reflexivity|].
  unfold UserService.getUserById. rewrite Hq.
  cbn [success data createSuccess negb UserService.users].
  rewrite (get_app_misses _ _ _ Hm).
  replace (JsMap.get (JS.Int z) m2) with (@None IUser.t)
    by (symmetry; apply get_None, Hm2).
  reflexivity.
Qed.

Lemma delete_then_get_witness :
  exists q u l1 l2,
    TypeConverter.toNumber (JS.VString "1") = createSuccess (Some q)
    /\ UserService.getUserById "1" (run [Create john] UserService.new)
       = createSuccess (Some u)
    /\ records (run [Create john] UserService.new) = l1 ++ u :: l2
    /\ records (snd (UserService.deleteUser "1"
                       (run [Create john] UserService.new)))
       = l1 ++ l2
    /\ UserService.nextId
         (snd (UserService.deleteUser "1" (run [Create john] UserService.new)))
       = UserService.nextId (run [Create john] UserService.new)
    /\ UserService.getUserById "1"
         (snd (UserService.deleteUser "1" (run [Create john] UserService.new)))
       = createError ("User not found with ID: " ++ JS.ToString q)%string.
Proof. apply (delete_then_get [Create john] "1"). reflexivity. Defined.

(** X13.  After a successful [update], [getById] of the same id returns
    the record [update] returned; the store holds the same ids in the same
    order, and the counter is as it was. *)
Theorem update_then_get :
  forall (ops : list op) (id : string) (updates : PartialRequest.t),
    let s := run ops UserService.new in
    let s' := snd (UserService.updateUser id updates s) in
    success (fst (UserService.updateUser id updates s)) = true ->
    exists u,
      fst (UserService.updateUser id updates s) = createSuccess (Some u)
      /\ UserService.getUserById id s' = createSuccess (Some u)
      /\ List.map IUser.id (records s') = List.map IUser.id (records s)
      /\ UserService.nextId s' = UserService.nextId s.
Proof.
  intros ops id updates s s' H.
  destruct (sound_reachable ops) as (n & S). fold s in S.
  destruct (sound_updateUser n s id updates S H) as (_ & Hids).
  destruct S as (W & _).
  destruct (updateUser_inv id updates s H) as (q & u & Hq & Hget & _ & _ & E).
  destruct (wf_get _ _ _ _ W Hget) as (m1 & m2 & z & _ & _ & Hid & -> & _).
  exists (updated updates u). split; [rewrite E; reflexivity|].
  split; [|split; [exact Hids | subst s'; rewrite E; reflexivity]].
  subst s'. rewrite E. cbn [snd]. unfold UserService.getUserById.
  rewrite Hq. cbn [success data createSuccess negb UserService.users].
  rewrite Hid, get_set_same. reflexivity.
Qed.

Lemma update_then_get_witness :
  exists u,
    fst (UserService.updateUser "1" (PartialRequest.mk (Some "Jane Doe") None)
           (run [Create john] UserService.new))
    = createSuccess (Some u)
    /\ UserService.getUserById "1"
         (snd (UserService.updateUser "1"
                 (PartialRequest.mk (Some "Jane Doe") None)
                 (run [Create john] UserService.new)))
       = createSuccess (Some u)
    /\ List.map IUser.id
         (records (snd (UserService.updateUser "1"
                          (PartialRequest.mk (Some "Jane Doe") None)
                          (run [Create john] UserService.new))))
       = List.map IUser.id (records (run [Create john] UserService.new))
    /\ UserService.nextId
         (snd (UserService.updateUser "1"
                 (PartialRequest.mk (Some "Jane Doe") None)
                 (run [Create john] UserService.new)))
       = UserService.nextId (run [Create john] UserService.new).
Proof.
  apply (update_then_get [Create john] "1"
           (PartialRequest.mk (Some "Jane Doe") None)).
  reflexivity.
Defined.

Lemma NoDup_map_eq {A B : Type} (f : A -> B) (l : list A) (x y : A) :
  NoDup (List.map f l) -> In x l -> In y l -> f x = f y -> x = y.
Proof.
  induction l as [|a l IH]; simpl; [intros _ []|].
  intros Hnd Hx Hy E. inversion Hnd as [|? ? Hnin Hnd']; subst.
  destruct Hx as [-> | Hx], Hy as [-> | Hy]; auto.
  - exfalso. apply Hnin. rewrite E. apply in_map, Hy.
  - exfalso. apply Hnin. rewrite <- E. apply in_map, Hx.
Qed.

(** X14.  An update that supplies nothing, or supplies again the name or
    the email the record already has, succeeds with the stored record
    and leaves the store as it was. *)
Theorem update_same_values :
  forall (ops : list op) (id : string) (u : IUser.t)
         (updates : PartialRequest.t),
    let s := run ops UserService.new in
    UserService.getUserById id s = createSuccess (Some u) ->
    PartialRequest.name updates = None
    \/ PartialRequest.name updates = Some (IUser.name u) ->
    PartialRequest.email updates = None
    \/ PartialRequest.email updates = Some (IUser.email u) ->
    UserService.updateUser id updates s = (createSuccess (Some u), s).
Proof.
  intros ops id u updates s Hg Hname Hemail.
  destruct (sound_reachable ops) as (n & W & Hv & _). fold s in W, Hv.
  destruct (getUserById_success _ _ _ Hg) as (q & Hq & Hget).
  destruct (wf_get _ _ _ _ W Hget) as (m1 & m2 & z & Em & Hz & Hid & -> & Hm).
  pose proof (get_In_values _ _ _ Hget) as Hin. fold (records s) in Hin.
  rewrite Forall_forall in Hv. destruct (Hv u Hin) as [Vn Ve].
  assert (Hupd : updated updates u = u).
  { unfold updated. destruct u as [i nm em]. cbn [IUser.id IUser.name IUser.email] in *.
    f_equal.
    - destruct Hname as [-> | ->]; [reflexivity|].
      apply or_nonempty, validateName_nonempty, Vn.
    - destruct Hemail as [-> | ->]; [reflexivity|].
      apply or_nonempty, validateEmail_nonempty, Ve. }
  assert (Hfind : UserService.findUserByEmail (IUser.email u) s
                  = createSuccess (Some u)).
  { destruct (findUserByEmail_cases (IUser.email u) s)
      as [[Hnin _] | (o & Ho & Eo & ->)].
    - exfalso. apply Hnin. apply in_map, Hin.
    - do 2 f_equal. apply (NoDup_map_eq IUser.email (records s));
        [apply (wf_emails _ _ W) | assumption ..]. }
  assert (Hset : JsMap.set (IUser.id u) u (UserService.users s)
                 = UserService.users s).
  { rewrite Hid, Em. apply set_at; [exact Hm | apply SameValueZero_refl]. }
  assert (Hself : JS.strict_eq (IUser.id u) (IUser.id u) = true).
  { rewrite Hid. unfold JS.strict_eq.
    destruct (JS.number_eq_dec (JS.Int z) (JS.Int z)); [|congruence].
    destruct z; reflexivity. }
  unfold UserService.updateUser. rewrite Hg.
  cbn [success data createSuccess negb].
  fold (updated updates u). rewrite Hupd, Hset.
  destruct s as [m nx]. cbn [UserService.users UserService.nextId] in *.
  destruct Hname as [-> | ->], Hemail as [-> | ->];
    rewrite ?Vn, ?Ve, ?Hfind; cbn [success data createSuccess negb andb];
    rewrite ?Hself; reflexivity.
Qed.

Lemma update_same_values_witness :
  UserService.updateUser "1"
    (PartialRequest.mk None (Some "john@example.com"))
    (run [Create john] UserService.new)
  = (createSuccess (Some john1), run [Create john] UserService.new).
Proof.
  apply (update_same_values [Create john] "1" john1
           (PartialRequest.mk None (Some "john@example.com")));
    [reflexivity | left; reflexivity | right; reflexivity].
Defined.

(** X15.  Deleting a record releases its email: after the delete, a
    [create] with that email and a valid name succeeds. *)
Theorem delete_releases_email :
  forall (ops : list op) (id name : string) (u : IUser.t),
    let s := run ops UserService.new in
    UserService.getUserById id s = createSuccess (Some u) ->
    UserService.validateName name = createSuccess (Some true) ->
    success (fst (UserService.deleteUser id s)) = true
    /\ success (fst (UserService.createUser
                       (IUserCreateRequest.mk name (IUser.email u))
                       (snd (UserService.deleteUser id s))))
       = true.
Proof.
  intros ops id name u s Hg Hname.
  destruct (sound_reachable ops) as (n & W & Hv & _). fold s in W, Hv.
  destruct (getUserById_success _ _ _ Hg) as (q & Hq & Hget).
  assert (Hdel : success (fst (UserService.deleteUser id s)) = true).
  { unfold UserService.deleteUser, JsMap.has. rewrite Hq.
    cbn [success data createSuccess negb]. rewrite Hget. reflexivity. }
  split; [exact Hdel|].
  destruct (deleteUser_inv id s Hdel) as (q' & u' & Hq' & Hget' & E).
  rewrite Hq in Hq'. injection Hq' as <-. rewrite Hget in Hget'.
  injection Hget' as <-.
  destruct (wf_get _ _ _ _ W Hget) as (m1 & m2 & z & Em & Hz & Hid & -> & Hm).
  pose proof (get_In_values _ _ _ Hget) as Hin. fold (records s) in Hin.
  rewrite Forall_forall in Hv. destruct (Hv u Hin) as [_ Ve].
  pose proof (wf_emails _ _ W) as He.
  rewrite E. cbn [snd].
  rewrite createUser_success; [reflexivity | exact Hname | exact Ve |].
  cbn [IUserCreateRequest.email].
  rewrite Em, (delete_at _ _ _ _ _ Hm (SameValueZero_refl _)).
  destruct s as [m nx]. cbn [UserService.users UserService.nextId] in *.
  subst m. rewrite emails_split in He. apply NoDup_remove_2 in He.
  unfold emails, records. cbn [UserService.users].
  rewrite values_app, map_app. exact He.
Qed.

Lemma delete_releases_email_witness :
  success (fst (UserService.deleteUser "1" (run [Create john] UserService.new)))
  = true
  /\ success (fst (UserService.createUser
                     (IUserCreateRequest.mk "Jane Doe" (IUser.email john1))
                     (snd (UserService.deleteUser "1"
                             (run [Create john] UserService.new)))))
     = true.
Proof.
  apply (delete_releases_email [Create john] "1" "Jane Doe" john1);
    reflexivity.
Defined.

(** X16.  An operation leaves the other records where they are: if
    [getById] returns a record before an operation that does not update
    or delete that very record, it returns the same record after it. *)
Theorem other_records_untouched :
  forall (ops : list op) (o : op) (id' : string) (u' : IUser.t),
    let s := run ops UserService.new in
    UserService.getUserById id' s = createSuccess (Some u') ->
    match o with
    | Update id _ | Delete id =>
        UserService.getUserById id s <> createSuccess (Some u')
    | _ => True
    end ->
    UserService.getUserById id' (snd (step o s)) = createSuccess (Some u').
Proof.
  intros ops o id' u' s Hg Ho.
  destruct (sound_reachable ops) as (n & W & _). fold s in W.
  destruct (getUserById_success _ _ _ Hg) as (q' & Hq' & Hget').
  destruct (wf_get _ _ _ _ W Hget') as (_ & _ & z' & _ & Hz' & Hid' & -> & _).
  assert (Hkeep : forall m,
            JsMap.get (JS.Int z') m = Some u' ->
            forall nx, UserService.getUserById id'
                         {| UserService.users := m; UserService.nextId := nx |}
                       = createSuccess (Some u')).
  { intros m Hm nx. unfold UserService.getUserById. rewrite Hq'.
    cbn [success data createSuccess negb UserService.users]. rewrite Hm.
    reflexivity. }
  assert (Hne : forall z, z <> z' ->
            JS.SameValueZero (JS.Int z) (JS.Int z') = false).
  { intros z Hz. destruct (JS.SameValueZero (JS.Int z) (JS.Int z')) eqn:E;
      [|reflexivity].
    apply SameValueZero_true in E. simpl in E. congruence. }
  rewrite step_state. destruct o; try exact Hg.
  - destruct (createUser_cases request s) as [[_ ->] | (Hn & He & Hf)];
      [exact Hg|].
    rewrite (createUser_success _ _ Hn He Hf). cbn [snd]. apply Hkeep.
    rewrite (wf_next _ _ W), get_set_other; [exact Hget' | apply Hne; lia].
  - destruct (updateUser_cases id updates s)
      as [[_ ->] | (u & Hgu & _ & _ & ->)]; [exact Hg|].
    cbn [snd]. apply Hkeep.
    destruct (getUserById_success _ _ _ Hgu) as (q & Hq & Hget).
    destruct (wf_get _ _ _ _ W Hget) as (_ & _ & z & _ & _ & Hid & -> & _).
    rewrite Hid, get_set_other; [exact Hget'|]. apply Hne. intros ->.
    rewrite Hget in Hget'. injection Hget' as ->. apply Ho, Hgu.
  - destruct (success (fst (UserService.deleteUser id s))) eqn:Hd.
    + destruct (deleteUser_inv id s Hd) as (q & u & Hq & Hget & ->).
      cbn [snd]. apply Hkeep.
      destruct (wf_get _ _ _ _ W Hget) as (_ & _ & z & _ & _ & Hid & -> & _).
      rewrite get_delete_other; [exact Hget'|]. apply Hne. intros ->.
      rewrite Hget in Hget'. injection Hget' as ->. apply Ho.
      unfold UserService.getUserById. rewrite Hq.
      cbn [success data createSuccess negb]. rewrite Hget. reflexivity.
    + destruct (deleteUser_cases id s) as [[_ ->] | (q & u & _ & E)];
        [exact Hg|].
      rewrite E in Hd. discriminate Hd.
Qed.

Lemma other_records_untouched_witness :
  UserService.getUserById "1"
    (snd (step (Delete "2") (run [Create john; Create jane] UserService.new)))
  = createSuccess (Some john1).
Proof.
  apply (other_records_untouched [Create john; Create jane] (Delete "2") "1"
           john1); [reflexivity | discriminate].
Defined.

(** X17.  [delete] and [update] find a record exactly when [getById]
    does: [delete] succeeds exactly when [getById] does, and when
    [getById] fails, [update] returns that very failure and [delete]
    fails with the same message, both leaving the store as it was. *)
Theorem lookup_failure_propagates :
  forall (id : string) (updates : PartialRequest.t) (s : UserService.t),
    success (fst (UserService.deleteUser id s))
    = success (UserService.getUserById id s)
    /\ (success (UserService.getUserById id s) = false ->
        UserService.updateUser id updates s
        = (UserService.getUserById id s, s)
        /\ error (fst (UserService.deleteUser id s))
           = error (UserService.getUserById id s)
        /\ snd (UserService.deleteUser id s) = s).
Proof.
  intros id updates s.
  unfold UserService.updateUser, UserService.deleteUser, JsMap.has.
  destruct (getUserById_cases id s)
    as [(e & Hc & Hg) | [(n & Hc & Hn & Hg) | (n & u & Hc & Hn & Hg)]];
    rewrite Hg, Hc; cbn [success data error createSuccess createError negb JS.or];
    rewrite ?Hn.
  - destruct (toNumber_string_cases id) as [(e' & Hne & He) | (n & He)];
      rewrite He in Hc; [|discriminate Hc]. injection Hc as <-.
    destruct e' as [|c0 e0]; [congruence|]. split; [reflexivity|].
    intros _. repeat split.
  - split; [reflexivity|]. intros _. repeat split.
  - split; [reflexivity|]. intros H. discriminate H.
Qed.

Lemma lookup_failure_propagates_witness :
  UserService.updateUser "999" (PartialRequest.mk (Some "Jane Doe") None)
    UserService.new
  = (UserService.getUserById "999" UserService.new, UserService.new).
Proof.
  apply (lookup_failure_propagates "999"
           (PartialRequest.mk (Some "Jane Doe") None) UserService.new).
  reflexivity.
Defined.

(** The demonstration succeeds, with the name of the user it created. *)
Example demonstrateGoLikeTypescript_result :
  demonstrateGoLikeTypescript
  = createSuccess
      (Some "Successfully demonstrated Go-like TypeScript with user: John Doe").
Proof. vm_compute. reflexivity. Qed.

Lemma counter_issued (ops : list op) :
  forall (s : UserService.t) (n : Z),
    UserService.nextId s = JS.Int n ->
    UserService.nextId (run ops s)
    = JS.Int (n + Z.of_nat (List.length (issued ops s))).
Proof.
  induction ops as [|o ops IH]; intros s n Hn.
  - simpl. rewrite Z.add_0_r. exact Hn.
  - cbn [run issued].
    destruct (step_counter o s n Hn) as [[-> Hn'] | [-> Hn']];
      rewrite (IH _ _ Hn'); cbn [app List.length]; f_equal; lia.
Qed.

Lemma step_ids (o : op) (s : UserService.t) (u : IUser.t) :
  In u (records (snd (step o s))) ->
  In (IUser.id u) (List.map IUser.id (records s))
  \/ In (IUser.id u) (issued_by o (fst (step o s))).
Proof.
  destruct o; cbn [step fst snd issued_by]; try (left; apply in_map; assumption).
  - destruct (createUser_cases request s) as [[Hf ->] | (Hn & He & Hf)];
      [left; apply in_map; assumption|].
    rewrite (createUser_success _ _ Hn He Hf).
    cbn [fst snd success data createSuccess]. unfold records.
    cbn [UserService.users]. intros H. apply In_values_set in H.
    destruct H as [-> | H]; [right; left; reflexivity | left; apply in_map, H].
  - destruct (updateUser_cases id updates s)
      as [[_ ->] | (e & Hg & _ & _ & ->)];
      [left; apply in_map; assumption|].
    cbn [snd]. unfold records. cbn [UserService.users]. intros H.
    apply In_values_set in H. left.
    destruct H as [-> | H]; [|apply in_map, H].
    destruct (getUserById_success _ _ _ Hg) as (q & _ & Hget).
    change (IUser.id (updated updates e)) with (IUser.id e).
    apply in_map. apply (get_In_values _ _ _ Hget).
  - destruct (deleteUser_cases id s) as [[_ ->] | (q & e & _ & ->)];
      [left; apply in_map; assumption|].
    cbn [snd]. unfold records. cbn [UserService.users]. intros H.
    apply In_values_delete in H. left. apply in_map, H.
Qed.

Lemma run_ids (ops : list op) :
  forall (s : UserService.t) (u : IUser.t),
    In u (records (run ops s)) ->
    In (IUser.id u) (List.map IUser.id (records s))
    \/ In (IUser.id u) (issued ops s).
Proof.
  induction ops as [|o ops IH]; intros s u H; cbn [run issued] in *.
  - left. apply in_map, H.
  - destruct (IH _ _ H) as [H1 | H1].
    + apply in_map_iff in H1. destruct H1 as (u1 & E & H1).
      rewrite <- E. destruct (step_ids o s u1 H1) as [H2 | H2];
        [left; exact H2 | right; apply in_or_app; left; exact H2].
    + right. apply in_or_app. right. exact H1.
Qed.

(** X18.  After any sequence of operations the counter is one more than
    the number of ids issued so far, and every stored record carries an
    id that a successful [create] of the sequence issued. *)
Theorem counter_and_stored_ids :
  forall ops : list op,
    UserService.nextId (run ops UserService.new)
    = JS.Int (1 + Z.of_nat (List.length (issued ops UserService.new)))
    /\ forall u, In u (records (run ops UserService.new)) ->
                 In (IUser.id u) (issued ops UserService.new).
Proof.
  intros ops. split; [apply counter_issued; reflexivity|].
  intros u Hu. destruct (run_ids ops _ u Hu) as [[] | H]. exact H.
Qed.

Lemma counter_and_stored_ids_witness :
  In (IUser.id john1) (issued [Create john] UserService.new).
Proof.
  apply (proj2 (counter_and_stored_ids [Create john]) john1).
  left. reflexivity.
Defined.
